(** * Crack Bank backend: a shallow embedding of [backend/main.py]

    The service has two request handlers, [check_breach] and
    [summarize_breach_with_ai], a start-up loader [load_breach_data] and a
    notification stub.  Python values that come out of [json.load] or of a
    request body are embedded as the inductive type [json]; exceptions are
    values of [exn]; a handler is a computation in a small monad [M] that
    threads the history of observable effects and may raise. *)

From Stdlib Require Import List String Ascii ZArith Bool Lia DecimalString.
From Stdlib Require Import Floats.SpecFloat.
Import ListNotations.
Local Open Scope string_scope.
Local Open Scope list_scope.

(** ** Python values and exceptions *)

Module Py.

(** What [json.load], [response.json()] and a parsed request body yield:
    [None], [bool], [int], [float], [str], [list] and [dict] with [str]
    keys.  A [dict] is kept as its items in iteration order; its keys are
    pairwise distinct.  A [str] is a sequence of characters and [len] is
    [String.length]. *)
#[local] Set Warnings "-register-all".
Inductive json : Type :=
| JNull
| JBool (b : bool)
| JInt (z : Z)
| JFloat (f : spec_float)
| JStr (s : string)
| JList (l : list json)
| JObj (kv : list (string * json)).

(** The exception classes the handlers raise, catch or let through. *)
Inductive exn : Type :=
| HTTPException (status_code : Z) (detail : string)
| RequestException (msg : string)
| FileNotFoundError
| AttributeError
| TypeError
| IndexError
| KeyError
| OtherException (msg : string).

(** Pure code that may raise. *)
Definition Exc (A : Type) : Type := (exn + A)%type.

Definition ebind {A B} (m : Exc A) (f : A -> Exc B) : Exc B :=
  match m with
  | inl e => inl e
  | inr a => f a
  end.

Declare Scope exc_scope.
Delimit Scope exc_scope with exc.
Notation "'let?' x ':=' m 'in' k" := (ebind m (fun x => k))
  (at level 10, x name, m at level 100, k at level 200) : exc_scope.

(** [bool(x)]: the truth value of a Python object. *)
Definition truthy (j : json) : bool :=
  match j with
  | JNull => false
  | JBool b => b
  | JInt z => negb (Z.eqb z 0)
  | JFloat (S754_zero _) => false
  | JFloat _ => true
  | JStr EmptyString => false
  | JStr _ => true
  | JList [] => false
  | JList _ => true
  | JObj [] => false
  | JObj _ => true
  end.

(** [d[key]] on the items of a dict, [None] when the key is missing. *)
Fixpoint lookup (kv : list (string * json)) (key : string) : option json :=
  match kv with
  | [] => None
  | (k, v) :: rest => if String.eqb k key then Some v else lookup rest key
  end.

(** [x.get(key, default)]: only a dict has the method. *)
Definition get (x : json) (key : string) (default : json) : Exc json :=
  match x with
  | JObj kv =>
      match lookup kv key with
      | Some v => inr v
      | None => inr default
      end
  | _ => inl AttributeError
  end.

(** [x.items()]: only a dict has the method. *)
Definition items (x : json) : Exc (list (string * json)) :=
  match x with
  | JObj kv => inr kv
  | _ => inl AttributeError
  end.

Fixpoint chars (s : string) : list json :=
  match s with
  | EmptyString => []
  | String c rest => JStr (String c EmptyString) :: chars rest
  end.

(** [iter(x)] run to the end: a list yields its elements, a str its
    characters, a dict its keys; anything else is not iterable. *)
Definition iter (x : json) : Exc (list json) :=
  match x with
  | JList l => inr l
  | JStr s => inr (chars s)
  | JObj kv => inr (map (fun p => JStr (fst p)) kv)
  | _ => inl TypeError
  end.

(** [x[0]]. *)
Definition index0 (x : json) : Exc json :=
  match x with
  | JList (a :: _) => inr a
  | JList [] => inl IndexError
  | JStr (String c _) => inr (JStr (String c EmptyString))
  | JStr EmptyString => inl IndexError
  | JObj _ => inl KeyError
  | _ => inl TypeError
  end.

(** [s == item] for a str [s]: true only for an equal str. *)
Definition str_eq (s : string) (item : json) : bool :=
  match item with
  | JStr t => String.eqb s t
  | _ => false
  end.

(** What FastAPI answers for the way a handler ends: 200 for a returned
    body, the status of an [HTTPException], 500 for any other exception. *)
Definition http_status {A} (r : Exc A) : Z :=
  match r with
  | inr _ => 200
  | inl (HTTPException status_code _) => status_code
  | inl _ => 500
  end.

(** ** Effects

    A handler runs in a world that records, in order, what it did to the
    outside: [time.sleep(seconds)], the entry into the notification stub
    with its arguments, [print(text)], for a caught exception
    [print(f"{text}{e}")], and [requests.post(url, json=payload, ...)].  An
    exception leaves the effects already performed in place. *)
Inductive event : Type :=
| Sleep (seconds : Z)
| Notify (email : string) (breaches : list json)
| Print (text : string)
| PrintExc (text : string) (e : exn)
| Post (url : string) (payload : json).

Definition world : Type := list event.

Definition M (A : Type) : Type := world -> Exc A * world.

Definition ret {A} (a : A) : M A := fun w => (inr a, w).

Definition raise {A} (e : exn) : M A := fun w => (inl e, w).

Definition bind {A B} (m : M A) (f : A -> M B) : M B :=
  fun w =>
    match m w with
    | (inl e, w') => (inl e, w')
    | (inr a, w') => f a w'
    end.

Definition emit (ev : event) : M unit := fun w => (inr tt, w ++ [ev]).

(** A pure computation that may raise, run inside a handler. *)
Definition lift {A} (m : Exc A) : M A := fun w => (m, w).

(** [try: body except ...: handler]. *)
Definition try_except {A} (body : M A) (handler : exn -> M A) : M A :=
  fun w =>
    match body w with
    | (inl e, w') => handler e w'
    | (inr a, w') => (inr a, w')
    end.

Declare Scope m_scope.
Delimit Scope m_scope with M.
Notation "x <- m ;; k" := (bind m (fun x => k))
  (at level 61, m at next level, right associativity) : m_scope.
Notation "m ;; k" := (bind m (fun _ => k))
  (at level 61, right associativity) : m_scope.

End Py.

(** ** Breach repository and lookup service *)

Module Lookup.
Import Py.
Local Open Scope exc_scope.
Local Open Scope m_scope.

(** [class BreachCheckRequest(BaseModel)]: [detail: str] and
    [email: Optional[str] = None]. *)
Record BreachCheckRequest : Type := {
  detail : string;
  email : option string
}.

(** The file object [open] hands to [json.load]: what matters of it is
    what [json.load] makes of its contents. *)
Record file : Type := { json_load : Exc json }.

(** [load_breach_data], given how [open("breaches.json", "r")] ends.  The
    [except FileNotFoundError] clause covers the whole [try] body. *)
Definition load_breach_data (open_breaches_json : Exc file) : Exc json :=
  match (let? f := open_breaches_json in json_load f) with
  | inl FileNotFoundError => inr (JObj [])
  | r => r
  end.

Definition nl : string := String (ascii_of_nat 10) EmptyString.

Fixpoint repeat_str (s : string) (n : nat) : string :=
  match n with
  | O => EmptyString
  | S k => (s ++ repeat_str s k)%string
  end.

Section Service.

(** [str(x)], which an f-string applies to a value; it never raises on the
    values of [json]. *)
Variable py_str : json -> string.

Definition print (text : string) : M unit := emit (Print text).

(** The [for breach in breaches] loop of the notification stub. *)
Fixpoint print_breaches (breaches : list json) : M unit :=
  match breaches with
  | [] => ret tt
  | breach :: rest =>
      source <- lift (get breach "source" (JStr "N/A")) ;;
      print ("  - Source: " ++ py_str source)%string ;;
      date <- lift (get breach "date" (JStr "N/A")) ;;
      print ("  - Date: " ++ py_str date)%string ;;
      print_breaches rest
  end.

Definition send_breach_notification (email : string) (breaches : list json)
  : M unit :=
  emit (Notify email breaches) ;;
  print (nl ++ "--- SIMULATING EMAIL NOTIFICATION ---")%string ;;
  print ("To: " ++ email)%string ;;
  print "From: security@crack-bank.local" ;;
  print "Subject: URGENT: Security Alert - Your Banking Detail Found in Data Breach" ;;
  print (repeat_str "-" 35) ;;
  print ("We have detected that your banking detail was found in the following data breach(es):" ++ nl)%string ;;
  print_breaches breaches ;;
  print (nl ++ "We strongly recommend you take immediate action to secure your accounts.")%string ;;
  print ("--- END OF SIMULATED EMAIL ---" ++ nl)%string.

(** [read_root]. *)
Definition read_root : M json :=
  ret (JObj [("status", JStr "Crack Bank API is running")]).

(** [any(user_detail == item for item in breach_info.get("leaked_details", []))]. *)
Definition any_leaked (user_detail : string) (breach_info : json) : Exc bool :=
  let? leaked_details := get breach_info "leaked_details" (JList []) in
  let? its := iter leaked_details in
  inr (existsb (str_eq user_detail) its).

(** The dict appended to [found_breaches] for a matching entry. *)
Definition found_record (breach_name : string) (breach_info : json) : Exc json :=
  let? date := get breach_info "date" JNull in
  let? risk_level := get breach_info "risk_level" JNull in
  let? description := get breach_info "description" JNull in
  inr (JObj [("source", JStr breach_name);
             ("date", date);
             ("risk_level", risk_level);
             ("description", description)]).

(** The [for breach_name, breach_info in BREACH_DATABASE.items()] loop,
    with [found_breaches] as the accumulator. *)
Fixpoint scan (user_detail : string) (entries : list (string * json))
         (found_breaches : list json) : Exc (list json) :=
  match entries with
  | [] => inr found_breaches
  | (breach_name, breach_info) :: rest =>
      let? hit := any_leaked user_detail breach_info in
      if (hit : bool) then
        let? record := found_record breach_name breach_info in
        scan user_detail rest (found_breaches ++ [record])
      else scan user_detail rest found_breaches
  end.

(** [check_breach], the handler of [POST /check-breach], run against the
    module-level [BREACH_DATABASE]. *)
Definition check_breach (BREACH_DATABASE : json) (request : BreachCheckRequest)
  : M json :=
  let user_detail := detail request in
  if negb (truthy (JStr user_detail)) || (String.length user_detail <? 8)%nat
  then raise (HTTPException 400 "Invalid banking detail provided.")
  else
    entries <- lift (items BREACH_DATABASE) ;;
    found_breaches <- lift (scan user_detail entries []) ;;
    emit (Sleep 2) ;;
    if truthy (JList found_breaches) then
      match email request with
      | Some e =>
          if truthy (JStr e) then send_breach_notification e found_breaches
          else ret tt
      | None => ret tt
      end ;;
      ret (JObj [("breached", JBool true); ("breaches", JList found_breaches)])
    else ret (JObj [("breached", JBool false)]).

End Service.

End Lookup.

(** ** AI summary service *)

Module Summary.
Import Py.
Local Open Scope exc_scope.
Local Open Scope m_scope.

(** [class AISummaryRequest(BaseModel)]: [breach_data: list]. *)
Record AISummaryRequest : Type := { breach_data : list json }.

(** The [requests.Response] object, as far as the handler uses it: how
    [raise_for_status()] ends ([HTTPError], a [RequestException], for a
    status the library rejects) and how [json()] ends. *)
Record Response : Type := {
  raise_for_status : Exc unit;
  response_json : Exc json
}.

Definition system_prompt : string :=
  ("You are a world-class cybersecurity analyst. Your name is 'Cypher'. "
   ++ "You are providing a security briefing to a non-technical user whose banking information was found in a data breach. "
   ++ "Your tone should be serious, clear, and reassuring, like a security expert in a hacker movie. "
   ++ "Do not use emojis. Structure your response in Markdown.")%string.

Definition user_prompt (breach_details_text : string) : string :=
  ("My banking detail was found in the following data breach(es):" ++ Lookup.nl ++ Lookup.nl
   ++ breach_details_text
   ++ "First, provide a brief, one-paragraph summary of the situation and the overall risk. "
   ++ "Then, provide a clear, actionable, and prioritized list of 3-5 security recommendations under a '## Recommended Actions' heading. "
   ++ "For example: '1. Contact Your Bank Immediately', '2. Enable Two-Factor Authentication (2FA)'. "
   ++ "Keep the language direct and easy to understand.")%string.

Definition api_url (api_key : string) : string :=
  ("https://generativelanguage.googleapis.com/v1beta/models/gemini-2.5-flash-preview-05-20:generateContent?key="
   ++ api_key)%string.

Definition payload (breach_details_text : string) : json :=
  JObj [("contents",
         JList [JObj [("parts",
                       JList [JObj [("text", JStr (user_prompt breach_details_text))]])]]);
        ("systemInstruction",
         JObj [("parts", JList [JObj [("text", JStr system_prompt)]])])].

Section Service.

Variable py_str : json -> string.

(** The outcome of [requests.post(url, json=payload, headers=...)]: the
    provider and the network decide it. *)
Variable requests_post : string -> json -> Exc Response.

Definition post (url : string) (body : json) : M Response :=
  fun w => (requests_post url body, w ++ [Post url body]).

(** The [for i, breach in enumerate(request.breach_data, 1)] loop, with
    [breach_details_text] as the accumulator. *)
Fixpoint render_breaches (i : Z) (breaches : list json)
         (breach_details_text : string) : Exc string :=
  match breaches with
  | [] => inr breach_details_text
  | breach :: rest =>
      let? source := get breach "source" (JStr "N/A") in
      let? date := get breach "date" (JStr "N/A") in
      let? risk_level := get breach "risk_level" (JStr "N/A") in
      let? description := get breach "description" (JStr "N/A") in
      render_breaches (i + 1) rest
        (breach_details_text
         ++ "Breach " ++ py_str (JInt i) ++ ":" ++ Lookup.nl
         ++ "- Source: " ++ py_str source ++ Lookup.nl
         ++ "- Date: " ++ py_str date ++ Lookup.nl
         ++ "- Risk Level: " ++ py_str risk_level ++ Lookup.nl
         ++ "- Description: " ++ py_str description ++ Lookup.nl ++ Lookup.nl)%string
  end.

(** The two extraction lines: the first candidate, then the text of the
    first part of its content, each [get] with the default the source
    gives it. *)
Definition extract_content (result : json) : Exc json :=
  let? candidates := get result "candidates" (JList [JObj []]) in
  let? candidate := index0 candidates in
  let? content := get candidate "content" (JObj []) in
  let? parts := get content "parts" (JList [JObj []]) in
  let? part := index0 parts in
  get part "text" (JStr EmptyString).

(** The body of the [try] statement. *)
Definition call_provider (api_key : string) (breach_details_text : string)
  : M json :=
  response <- post (api_url api_key) (payload breach_details_text) ;;
  lift (raise_for_status response) ;;
  result <- lift (response_json response) ;;
  content <- lift (extract_content result) ;;
  if negb (truthy content)
  then raise (HTTPException 500 "Failed to get a valid response from AI model.")
  else ret (JObj [("summary", content)]).

(** The two [except] clauses, tried in order: [RequestException] first,
    then [Exception], which every exception of [exn] is. *)
Definition on_exception (e : exn) : M json :=
  match e with
  | RequestException msg =>
      emit (PrintExc "Error calling Gemini API: " e) ;;
      raise (HTTPException 503
               ("Error communicating with the AI service: " ++ msg)%string)
  | _ =>
      emit (PrintExc "An unexpected error occurred: " e) ;;
      raise (HTTPException 500
               "An internal error occurred while processing the AI summary.")
  end.

(** [summarize_breach_with_ai], the handler of [POST /summarize-breach];
    [GOOGLE_API_KEY] is what [os.getenv("GOOGLE_API_KEY")] returns. *)
Definition summarize_breach_with_ai (GOOGLE_API_KEY : option string)
           (request : AISummaryRequest) : M json :=
  match GOOGLE_API_KEY with
  | None => raise (HTTPException 500 "Google API key not configured.")
  | Some api_key =>
      if negb (truthy (JStr api_key))
      then raise (HTTPException 500 "Google API key not configured.")
      else if negb (truthy (JList (breach_data request)))
      then raise (HTTPException 400 "No breach data provided.")
      else
        breach_details_text <-
          lift (render_breaches 1 (breach_data request) EmptyString) ;;
        try_except (call_provider api_key breach_details_text) on_exception
  end.

End Service.

End Summary.

(** ** The vocabulary of the contract

    What the properties below speak of: the leaked details of a dataset
    entry, the record that stands for an entry in a response, the entries a
    lookup selects, and the notification calls found in a history. *)

Module Contract.
Import Py.
Local Open Scope exc_scope.

(** The leaked details of an entry, as the lookup enumerates them. *)
Definition leaked_set (breach_info : json) : Exc (list json) :=
  let? leaked_details := get breach_info "leaked_details" (JList []) in
  iter leaked_details.

(** The entry lists its leaked details. *)
Definition well_formed (breach_info : json) : Prop :=
  exists l, leaked_set breach_info = inr l.

(** The detail is one of the entry's leaked details. *)
Definition contains (breach_info : json) (d : string) : Prop :=
  exists l, leaked_set breach_info = inr l /\ In (JStr d) l.

(** A field of an entry, null when the entry has no such key. *)
Definition field (breach_info : json) (key : string) : json :=
  match breach_info with
  | JObj kv =>
      match lookup kv key with
      | Some v => v
      | None => JNull
      end
  | _ => JNull
  end.

(** The breach record of an entry: its source name, date, risk level and
    description. *)
Definition record_fields (entry : string * json) : list (string * json) :=
  [("source", JStr (fst entry));
   ("date", field (snd entry) "date");
   ("risk_level", field (snd entry) "risk_level");
   ("description", field (snd entry) "description")].

Definition record_of (entry : string * json) : json :=
  JObj (record_fields entry).

(** [Selected d entries records]: [records] has one record for each entry
    of [entries] that contains [d], and nothing else, in the order of
    [entries]. *)
Inductive Selected (d : string) : list (string * json) -> list json -> Prop :=
| Selected_nil : Selected d [] []
| Selected_hit entry rest records :
    contains (snd entry) d ->
    Selected d rest records ->
    Selected d (entry :: rest) (record_of entry :: records)
| Selected_miss entry rest records :
    ~ contains (snd entry) d ->
    Selected d rest records ->
    Selected d (entry :: rest) records.

(** The calls of the notification stub recorded in a history. *)
Fixpoint notify_calls (evs : list event) : list (string * list json) :=
  match evs with
  | [] => []
  | Notify email breaches :: rest => (email, breaches) :: notify_calls rest
  | _ :: rest => notify_calls rest
  end.

(** The two shapes of a lookup response. *)
Definition breached_body (found : list json) : json :=
  JObj [("breached", JBool true); ("breaches", JList found)].

Definition not_breached_body : json := JObj [("breached", JBool false)].

Definition is_dict (j : json) : Prop := exists kv, j = JObj kv.

(** The dataset of the running example: one breach, one leaked detail. *)
Definition LeakCo : json :=
  JObj [("date", JStr "2023-01-01");
        ("risk_level", JStr "high");
        ("description", JStr "x");
        ("leaked_details", JList [JStr "ACC123456"])].

Definition example_entries : list (string * json) := [("LeakCo", LeakCo)].

Definition example_record : json :=
  JObj [("source", JStr "LeakCo");
        ("date", JStr "2023-01-01");
        ("risk_level", JStr "high");
        ("description", JStr "x")].

(** The notification contract read literally: the stub is called exactly
    once, with the email and the selected records, precisely when the
    request carries an email and something was selected; otherwise it is
    not called. *)
Definition notified_iff_email_and_match (py_str : json -> string)
           (entries : list (string * json))
           (request : Lookup.BreachCheckRequest) : Prop :=
  forall found,
    Selected (Lookup.detail request) entries found ->
    let calls :=
      notify_calls
        (snd (Lookup.check_breach py_str (JObj entries) request [])) in
    (forall e,
        calls = [(e, found)]
        <-> (Lookup.email request = Some e /\ found <> []))
    /\ ((Lookup.email request = None \/ found = []) -> calls = []).

(** A dataset with an entry that has no key at all next to [LeakCo]. *)
Definition sparse_entries : list (string * json) :=
  [("Bare", JObj []); ("LeakCo", LeakCo)].

(** Three breaches: the detail of the running example leaked in the first
    and, twice, in the third, which has no other key. *)
Definition repeated_entries : list (string * json) :=
  [("LeakCo", LeakCo);
   ("Clean", JObj [("leaked_details", JList [JStr "ZZZ99999"])]);
   ("Dump", JObj [("leaked_details",
                   JList [JStr "ACC123456"; JInt 7; JStr "ACC123456"])])].

(** A rendering of values for the examples: [str] on [None], a bool, an
    int and a str; the other values are not rendered faithfully. *)
Definition example_str (j : json) : string :=
  match j with
  | JNull => "None"
  | JBool true => "True"
  | JBool false => "False"
  | JInt z => NilZero.string_of_int (Z.to_int z)
  | JStr s => s
  | _ => "?"
  end.

(** The prompt text rendered for the one record of the running example. *)
Definition example_text : string :=
  match Summary.render_breaches example_str 1 [example_record] EmptyString with
  | inr text => text
  | inl _ => EmptyString
  end.

(** Two providers for the examples: one that cannot be reached and one
    that answers every request with the given JSON document. *)
Definition provider_down (url : string) (body : json) : Exc Summary.Response :=
  inl (RequestException "connection refused").

Definition provider_answers (result : json) (url : string) (body : json)
  : Exc Summary.Response :=
  inr {| Summary.raise_for_status := inr tt;
         Summary.response_json := inr result |}.

(** A provider that answers with a status [raise_for_status] rejects. *)
Definition provider_rejects (url : string) (body : json)
  : Exc Summary.Response :=
  inr {| Summary.raise_for_status :=
           inl (RequestException "429 Client Error: Too Many Requests");
         Summary.response_json := inr (JObj []) |}.

(** The first precondition clause of the summary contract read on its
    own: an empty [breach_data] is answered with status 400. *)
Definition empty_data_is_400 (py_str : json -> string)
           (requests_post : string -> json -> Exc Summary.Response)
           (GOOGLE_API_KEY : option string)
           (request : Summary.AISummaryRequest) : Prop :=
  Summary.breach_data request = [] ->
  http_status
    (fst (Summary.summarize_breach_with_ai py_str requests_post
            GOOGLE_API_KEY request [])) = 400%Z.

(** *** Vocabulary for the histories and for the console *)

(** The pauses, the provider requests and the printed texts recorded in a
    history. *)
Fixpoint sleeps (evs : list event) : list Z :=
  match evs with
  | [] => []
  | Sleep seconds :: rest => seconds :: sleeps rest
  | _ :: rest => sleeps rest
  end.

Fixpoint posts (evs : list event) : list (string * json) :=
  match evs with
  | [] => []
  | Post url body :: rest => (url, body) :: posts rest
  | _ :: rest => posts rest
  end.

Fixpoint printed (evs : list event) : list string :=
  match evs with
  | [] => []
  | Print text :: rest => text :: printed rest
  | _ :: rest => printed rest
  end.

(** The value under a key of a dict, or the default when the key is
    missing. *)
Definition field_or (breach : json) (key : string) (default : json) : json :=
  match breach with
  | JObj kv =>
      match lookup kv key with
      | Some v => v
      | None => default
      end
  | _ => default
  end.

(** The two console lines of one breach in a notification. *)
Definition breach_lines (py_str : json -> string) (breach : json)
  : list string :=
  [("  - Source: " ++ py_str (field_or breach "source" (JStr "N/A")))%string;
   ("  - Date: " ++ py_str (field_or breach "date" (JStr "N/A")))%string].

(** The console text of a whole notification. *)
Definition notification_lines (py_str : json -> string) (email : string)
           (breaches : list json) : list string :=
  [(Lookup.nl ++ "--- SIMULATING EMAIL NOTIFICATION ---")%string;
   ("To: " ++ email)%string;
   "From: security@crack-bank.local";
   "Subject: URGENT: Security Alert - Your Banking Detail Found in Data Breach";
   Lookup.repeat_str "-" 35;
   ("We have detected that your banking detail was found in the following data breach(es):" ++ Lookup.nl)%string]
  ++ flat_map (breach_lines py_str) breaches
  ++ [(Lookup.nl ++ "We strongly recommend you take immediate action to secure your accounts.")%string;
      ("--- END OF SIMULATED EMAIL ---" ++ Lookup.nl)%string].

(** The events a lookup adds to the history once its loop has ended with
    [found]: the pause, then the notification if there is one. *)
Definition lookup_events (py_str : json -> string) (email : option string)
           (found : list json) : list event :=
  Sleep 2
  :: match found, email with
     | _ :: _, Some (String c s) =>
         Notify (String c s) found
         :: map Print (notification_lines py_str (String c s) found)
     | _, _ => []
     end.

(** The block of prompt text of one breach numbered [i]. *)
Definition breach_block (py_str : json -> string) (i : Z) (breach : json)
  : string :=
  ("Breach " ++ py_str (JInt i) ++ ":" ++ Lookup.nl
   ++ "- Source: " ++ py_str (field_or breach "source" (JStr "N/A")) ++ Lookup.nl
   ++ "- Date: " ++ py_str (field_or breach "date" (JStr "N/A")) ++ Lookup.nl
   ++ "- Risk Level: " ++ py_str (field_or breach "risk_level" (JStr "N/A")) ++ Lookup.nl
   ++ "- Description: " ++ py_str (field_or breach "description" (JStr "N/A")) ++ Lookup.nl
   ++ Lookup.nl)%string.

(** The blocks of a sequence of breaches, numbered from [i], one after
    the other. *)
Fixpoint breach_blocks (py_str : json -> string) (i : Z)
         (breaches : list json) : string :=
  match breaches with
  | [] => EmptyString
  | breach :: rest =>
      (breach_block py_str i breach
       ++ breach_blocks py_str (i + 1) rest)%string
  end.

(** The message of the catch-all error of the summary service. *)
Definition internal_error : exn :=
  HTTPException 500 "An internal error occurred while processing the AI summary.".

(** The three ways the [try] statement of the summary service ends, for
    the credential [k] and the prompt text [text]: with the summary, with
    the 503 error after a [RequestException], with the catch-all error
    after any other exception [e]. *)
Inductive guarded_outcome
          (requests_post : string -> json -> Exc Summary.Response)
          (k text : string) (w : world) : Exc json * world -> Prop :=
| ends_with_summary response result content :
    requests_post (Summary.api_url k) (Summary.payload text) = inr response ->
    Summary.raise_for_status response = inr tt ->
    Summary.response_json response = inr result ->
    Summary.extract_content result = inr content ->
    truthy content = true ->
    guarded_outcome requests_post k text w
      (inr (JObj [("summary", content)]),
       w ++ [Post (Summary.api_url k) (Summary.payload text)])
| ends_unavailable msg :
    (requests_post (Summary.api_url k) (Summary.payload text)
     = inl (RequestException msg)
     \/ exists response,
         requests_post (Summary.api_url k) (Summary.payload text)
         = inr response
         /\ (Summary.raise_for_status response = inl (RequestException msg)
             \/ (Summary.raise_for_status response = inr tt
                 /\ Summary.response_json response
                    = inl (RequestException msg)))) ->
    guarded_outcome requests_post k text w
      (inl (HTTPException 503
              ("Error communicating with the AI service: " ++ msg)%string),
       w ++ [Post (Summary.api_url k) (Summary.payload text);
             PrintExc "Error calling Gemini API: " (RequestException msg)])
| ends_internal e :
    (forall msg, e <> RequestException msg) ->
    guarded_outcome requests_post k text w
      (inl internal_error,
       w ++ [Post (Summary.api_url k) (Summary.payload text);
             PrintExc "An unexpected error occurred: " e]).

End Contract.

(** ** Properties of the lookup service *)

Module LookupProofs.
Import Py Lookup Contract.
Local Open Scope exc_scope.
Local Open Scope m_scope.

Ltac run :=
  cbv [bind ret raise emit lift print try_except ebind] in *; cbn [fst snd] in *.

Lemma existsb_str_eq (d : string) (l : list json) :
  existsb (str_eq d) l = true <-> In (JStr d) l.
Proof.
  rewrite existsb_exists. split.
  - intros [x [Hin Heq]]. destruct x; cbn in Heq; try discriminate.
    apply String.eqb_eq in Heq. now subst.
  - intros Hin. exists (JStr d). split; [assumption|].
    cbn. apply String.eqb_refl.
Qed.

Lemma any_leaked_as_set (d : string) (info : json) :
  any_leaked d info
  = (let? l := leaked_set info in inr (existsb (str_eq d) l)).
Proof.
  unfold any_leaked, leaked_set, ebind.
  destruct (get info "leaked_details" (JList [])); reflexivity.
Qed.

Lemma any_leaked_true (d : string) (info : json) :
  any_leaked d info = inr true <-> contains info d.
Proof.
  rewrite any_leaked_as_set. unfold contains, ebind. split.
  - destruct (leaked_set info) as [e|l]; [discriminate|].
    intros H. injection H as H. exists l. split; [reflexivity|].
    now apply existsb_str_eq.
  - intros [l [Hl Hin]]. rewrite Hl. f_equal. now apply existsb_str_eq.
Qed.

Lemma any_leaked_false (d : string) (info : json) :
  well_formed info -> ~ contains info d -> any_leaked d info = inr false.
Proof.
  intros [l Hl] Hno. rewrite any_leaked_as_set, Hl. cbn. f_equal.
  destruct (existsb (str_eq d) l) eqn:E; [|reflexivity].
  exfalso. apply Hno. exists l. split; [assumption|].
  now apply existsb_str_eq.
Qed.

Lemma well_formed_is_dict (info : json) : well_formed info -> is_dict info.
Proof.
  intros [l Hl]. unfold leaked_set, get, ebind in Hl.
  destruct info; try discriminate. now exists kv.
Qed.

Lemma found_record_of (name : string) (info : json) :
  is_dict info -> found_record name info = inr (record_of (name, info)).
Proof.
  intros [kv ->]. unfold found_record, record_of, record_fields, field, get, ebind.
  cbn.
  destruct (lookup kv "date"), (lookup kv "risk_level"),
    (lookup kv "description"); reflexivity.
Qed.

Lemma notify_calls_app (a b : list event) :
  notify_calls (a ++ b) = notify_calls a ++ notify_calls b.
Proof.
  induction a as [|ev a IH]; [reflexivity|].
  destruct ev; cbn; now rewrite IH.
Qed.

Lemma Selected_dicts (d : string) (entries : list (string * json))
      (found : list json) :
  Selected d entries found -> Forall is_dict found.
Proof.
  induction 1; auto.
  constructor; [|assumption]. now exists (record_fields entry).
Qed.

(** On well-formed entries the loop ends normally, having appended to its
    accumulator the records of the selected entries. *)
Lemma scan_selected (d : string) (entries : list (string * json)) :
  Forall (fun entry => well_formed (snd entry)) entries ->
  forall acc, exists found,
    scan d entries acc = inr (acc ++ found) /\ Selected d entries found.
Proof.
  induction 1 as [|[name info] rest Hwf _ IH]; intros acc.
  - exists []. cbn. rewrite app_nil_r. split; [reflexivity|constructor].
  - cbn [snd] in Hwf. cbn [scan].
    destruct (any_leaked d info) as [e|[|]] eqn:Hany.
    + destruct Hwf as [l Hl]. rewrite any_leaked_as_set, Hl in Hany.
      discriminate.
    + cbn [ebind].
      rewrite (found_record_of name info (well_formed_is_dict _ Hwf)).
      cbn [ebind].
      destruct (IH (acc ++ [record_of (name, info)])) as [found [Hscan Hsel]].
      exists (record_of (name, info) :: found). split.
      * rewrite Hscan, <- app_assoc. reflexivity.
      * apply Selected_hit; [|assumption]. now apply any_leaked_true.
    + cbn [ebind].
      destruct (IH acc) as [found [Hscan Hsel]].
      exists found. split; [assumption|].
      apply Selected_miss; [|assumption].
      intros Hc. apply any_leaked_true in Hc. cbn [snd] in Hc. congruence.
Qed.

Section WithStr.

Variable py_str : json -> string.

Lemma print_breaches_total (breaches : list json) :
  Forall is_dict breaches ->
  forall w, exists evs,
    print_breaches py_str breaches w = (inr tt, w ++ evs)
    /\ notify_calls evs = [].
Proof.
  induction 1 as [|breach rest [kv ->] _ IH]; intros w.
  - exists []. cbn. rewrite app_nil_r. split; reflexivity.
  - cbn [print_breaches]. run. cbn [get].
    destruct (lookup kv "source"), (lookup kv "date");
      match goal with
      | |- context [print_breaches py_str rest ?w'] =>
          destruct (IH w') as [evs [-> Hevs]]
      end;
      eexists (_ :: _ :: evs);
      (split; [rewrite <- !app_assoc; reflexivity | exact Hevs]).
Qed.

Lemma send_breach_notification_total (e : string) (breaches : list json) :
  Forall is_dict breaches ->
  forall w, exists evs,
    send_breach_notification py_str e breaches w
    = (inr tt, w ++ Notify e breaches :: evs)
    /\ notify_calls evs = [].
Proof.
  intros Hd w. unfold send_breach_notification. run.
  match goal with
  | |- context [print_breaches py_str breaches ?w'] =>
      destruct (print_breaches_total breaches Hd w') as [evs [-> Hevs]]
  end.
  eexists (_ :: _ :: _ :: _ :: _ :: _ :: evs ++ [_; _]). split.
  - rewrite <- !app_assoc. reflexivity.
  - cbn. rewrite notify_calls_app, Hevs. reflexivity.
Qed.

Lemma Selected_complete (d : string) (entries : list (string * json))
      (found : list json) :
  Selected d entries found ->
  forall entry, In entry entries -> contains (snd entry) d ->
                In (record_of entry) found.
Proof.
  induction 1 as [|entry rest records Hc _ IH|entry rest records Hn _ IH];
    intros x Hin Hx; cbn in Hin.
  - contradiction.
  - destruct Hin as [->|Hin]; [now left|right; now apply IH].
  - destruct Hin as [->|Hin]; [contradiction|now apply IH].
Qed.

Lemma Selected_sound (d : string) (entries : list (string * json))
      (found : list json) :
  Selected d entries found ->
  forall r, In r found ->
            exists entry, In entry entries /\ contains (snd entry) d
                          /\ r = record_of entry.
Proof.
  induction 1 as [|entry rest records Hc _ IH|entry rest records Hn _ IH];
    intros r Hin.
  - contradiction.
  - destruct Hin as [<-|Hin].
    + exists entry. repeat split; [now left|assumption].
    + destruct (IH r Hin) as [x [Hx [Hcx Hr]]].
      exists x. repeat split; [now right|assumption|assumption].
  - destruct (IH r Hin) as [x [Hx [Hcx Hr]]].
    exists x. repeat split; [now right|assumption|assumption].
Qed.

Lemma Selected_none (d : string) (entries : list (string * json))
      (found : list json) :
  Selected d entries found ->
  (forall entry, In entry entries -> ~ contains (snd entry) d) ->
  found = [].
Proof.
  intros Hsel Hnone. destruct found as [|r found']; [reflexivity|].
  destruct (Selected_sound _ _ _ Hsel r (or_introl eq_refl))
    as [entry [Hin [Hc _]]].
  exfalso. exact (Hnone entry Hin Hc).
Qed.

Lemma Selected_NoDup (d : string) (entries : list (string * json))
      (found : list json) :
  Selected d entries found -> NoDup (map fst entries) -> NoDup found.
Proof.
  induction 1 as [|entry rest records Hc Hsel IH|entry rest records Hn _ IH];
    intros Hnd; cbn in Hnd.
  - constructor.
  - inversion Hnd as [|? ? Hnotin Hrest]; subst.
    constructor; [|now apply IH].
    intros Hin.
    destruct (Selected_sound _ _ _ Hsel _ Hin) as [x [Hx [_ Heq]]].
    apply Hnotin. unfold record_of, record_fields in Heq.
    injection Heq as Hname _ _ _. rewrite Hname.
    now apply in_map.
  - inversion Hnd; subst. now apply IH.
Qed.

(** A request with a valid detail against well-formed entries: the
    handler returns, having slept once, and calls the stub at most once. *)
Lemma check_breach_outcome (entries : list (string * json))
      (request : BreachCheckRequest) (w : world) :
  8 <= String.length (detail request) ->
  Forall (fun entry => well_formed (snd entry)) entries ->
  exists found evs,
    Selected (detail request) entries found
    /\ check_breach py_str (JObj entries) request w
       = (inr match found with
              | [] => not_breached_body
              | _ :: _ => breached_body found
              end,
          w ++ Sleep 2 :: evs)
    /\ notify_calls evs
       = match found, email request with
         | _ :: _, Some (String c s) => [(String c s, found)]
         | _, _ => []
         end
    /\ (found = [] -> evs = []).
Proof.
  intros Hlen Hwf.
  destruct (scan_selected (detail request) entries Hwf []) as [found [Hscan Hsel]].
  cbn [app] in Hscan.
  pose proof (Selected_dicts _ _ _ Hsel) as Hd.
  unfold check_breach.
  destruct (detail request) as [|c0 d0] eqn:Hdet; [cbn in Hlen; lia|].
  cbn [truthy negb orb].
  destruct (Nat.ltb_spec (String.length (String c0 d0)) 8) as [Hlt|_]; [lia|].
  run. cbn [items]. rewrite Hscan.
  destruct found as [|r found'].
  - exists [], []. split; [assumption|]. split; [reflexivity|].
    split; [now destruct (email request)|reflexivity].
  - cbn [truthy].
    destruct (email request) as [[|c s]|].
    + exists (r :: found'), []. split; [assumption|].
      split; [reflexivity|]. split; [reflexivity|discriminate].
    + destruct (send_breach_notification_total (String c s) (r :: found') Hd
                  (w ++ [Sleep 2])) as [evs [-> Hevs]].
      exists (r :: found'), (Notify (String c s) (r :: found') :: evs).
      split; [assumption|]. split; [|split].
      * rewrite <- app_assoc. reflexivity.
      * cbn. now rewrite Hevs.
      * discriminate.
    + exists (r :: found'), []. split; [assumption|].
      split; [reflexivity|]. split; [reflexivity|discriminate].
Qed.

(** C2: a detail that is empty or shorter than 8 characters makes
    check-breach raise the 400 "Invalid banking detail provided." error,
    whatever the dataset; nothing is looked up and nothing else happens. *)
Theorem check_breach_rejects_short_detail (db : json)
        (request : BreachCheckRequest) (w : world) :
  detail request = EmptyString \/ String.length (detail request) < 8 ->
  check_breach py_str db request w
  = (inl (HTTPException 400 "Invalid banking detail provided."), w)
  /\ http_status (fst (check_breach py_str db request w)) = 400%Z.
Proof.
  intros H.
  assert (Hshort : String.length (detail request) < 8).
  { destruct H as [->|H]; [cbn; lia|assumption]. }
  unfold check_breach.
  apply Nat.ltb_lt in Hshort. rewrite Hshort, orb_true_r.
  split; reflexivity.
Qed.

(** C1: with a detail of length at least 8 that some entry of a
    well-formed dataset contains, check-breach answers breached = true
    with a breaches list holding exactly one record (source name, date,
    risk level, description) per entry containing the detail, in dataset
    order; with distinct entry names no record repeats. *)
Theorem check_breach_reports_matches (entries : list (string * json))
        (request : BreachCheckRequest) (w : world) :
  8 <= String.length (detail request) ->
  Forall (fun entry => well_formed (snd entry)) entries ->
  (exists entry, In entry entries /\ contains (snd entry) (detail request)) ->
  exists found,
    fst (check_breach py_str (JObj entries) request w)
    = inr (JObj [("breached", JBool true); ("breaches", JList found)])
    /\ Selected (detail request) entries found
    /\ found <> []
    /\ (NoDup (map fst entries) -> NoDup found).
Proof.
  intros Hlen Hwf [entry [Hin Hc]].
  destruct (check_breach_outcome entries request w Hlen Hwf)
    as [found [evs [Hsel [Hrun _]]]].
  pose proof (Selected_complete _ _ _ Hsel entry Hin Hc) as Hrec.
  exists found. rewrite Hrun. cbn [fst].
  destruct found as [|r found']; [contradiction|].
  split; [reflexivity|]. split; [assumption|]. split; [discriminate|].
  now apply Selected_NoDup with (d := detail request).
Qed.

(** C5: with a detail of length at least 8 that no entry of a well-formed
    dataset contains, check-breach answers exactly [{"breached": false}],
    without a breaches field, after the one pause. *)
Theorem check_breach_reports_absence (entries : list (string * json))
        (request : BreachCheckRequest) (w : world) :
  8 <= String.length (detail request) ->
  Forall (fun entry => well_formed (snd entry)) entries ->
  (forall entry, In entry entries -> ~ contains (snd entry) (detail request)) ->
  check_breach py_str (JObj entries) request w
  = (inr (JObj [("breached", JBool false)]), w ++ [Sleep 2]).
Proof.
  intros Hlen Hwf Hnone.
  destruct (check_breach_outcome entries request w Hlen Hwf)
    as [found [evs [Hsel [Hrun [_ Hquiet]]]]].
  pose proof (Selected_none _ _ _ Hsel Hnone) as ->.
  rewrite Hrun, (Hquiet eq_refl). reflexivity.
Qed.

Lemma found_record_is_dict (name : string) (info r : json) :
  found_record name info = inr r -> is_dict r.
Proof.
  unfold found_record, ebind.
  destruct (get info "date" JNull); [discriminate|].
  destruct (get info "risk_level" JNull); [discriminate|].
  destruct (get info "description" JNull); [discriminate|].
  intros H. injection H as <-. now eexists.
Qed.

Lemma scan_dicts (d : string) (entries : list (string * json)) :
  forall acc found,
    Forall is_dict acc -> scan d entries acc = inr found ->
    Forall is_dict found.
Proof.
  induction entries as [|[name info] rest IH]; intros acc found Hacc Hscan.
  - cbn in Hscan. injection Hscan as <-. assumption.
  - cbn [scan] in Hscan. unfold ebind in Hscan.
    destruct (any_leaked d info) as [e|[|]]; [discriminate| |].
    + destruct (found_record name info) as [e|r] eqn:Hr; [discriminate|].
      apply (IH (acc ++ [r]) found); [|assumption].
      apply Forall_app. split; [assumption|].
      constructor; [|constructor]. exact (found_record_is_dict _ _ _ Hr).
    + now apply (IH acc found).
Qed.

(** The response of a lookup does not look at the email. *)
Lemma check_breach_response_of_detail (db : json)
      (request : BreachCheckRequest) (w : world) :
  fst (check_breach py_str db request w)
  = fst (check_breach py_str db
           {| detail := detail request; email := None |} w).
Proof.
  unfold check_breach. cbn [detail email].
  destruct (negb (truthy (JStr (detail request)))
            || (String.length (detail request) <? 8)%nat); [reflexivity|].
  run. destruct (items db) as [e|entries]; [reflexivity|].
  destruct (scan (detail request) entries []) as [e|found] eqn:Hscan;
    [reflexivity|].
  destruct found as [|r found']; cbn [truthy]; [reflexivity|].
  destruct (email request) as [[|c s]|]; [reflexivity| |reflexivity].
  pose proof (scan_dicts _ _ _ _ (Forall_nil _) Hscan) as Hd.
  destruct (send_breach_notification_total (String c s) (r :: found') Hd
              (w ++ [Sleep 2])) as [evs [-> _]].
  reflexivity.
Qed.

(** C9: two check-breach requests with the same detail, run against the
    same dataset from the same history, get the same response, whatever
    their email fields are. *)
Theorem check_breach_response_ignores_email (db : json)
        (request1 request2 : BreachCheckRequest) (w : world) :
  detail request1 = detail request2 ->
  fst (check_breach py_str db request1 w)
  = fst (check_breach py_str db request2 w).
Proof.
  intros Heq.
  rewrite (check_breach_response_of_detail db request1),
    (check_breach_response_of_detail db request2), Heq.
  reflexivity.
Qed.

(** C6, amended: a check-breach request with a detail of length at least
    8 against a well-formed dataset calls the notification stub exactly
    once, with the email and the full list of selected records, if and
    only if its email is present and not empty and at least one record
    was selected; with the email omitted or empty, or with nothing
    selected, the stub is not called. *)
Theorem check_breach_notifies_nonempty_email (entries : list (string * json))
        (request : BreachCheckRequest) (w : world) :
  8 <= String.length (detail request) ->
  Forall (fun entry => well_formed (snd entry)) entries ->
  exists found evs,
    Selected (detail request) entries found
    /\ snd (check_breach py_str (JObj entries) request w) = w ++ evs
    /\ (forall e,
           notify_calls evs = [(e, found)]
           <-> (email request = Some e /\ e <> EmptyString /\ found <> []))
    /\ ((email request = None \/ email request = Some EmptyString
         \/ found = []) -> notify_calls evs = []).
Proof.
  intros Hlen Hwf.
  destruct (check_breach_outcome entries request w Hlen Hwf)
    as [found [evs [Hsel [Hrun [Hcalls _]]]]].
  exists found, (Sleep 2 :: evs). split; [assumption|].
  split; [now rewrite Hrun|].
  cbn [notify_calls]. rewrite Hcalls. split.
  - intros e. split.
    + destruct found as [|r found']; [discriminate|].
      destruct (email request) as [[|c s]|]; try discriminate.
      intros H. injection H as <-.
      split; [reflexivity|]. split; discriminate.
    + intros [-> [Hne Hfound]].
      destruct found as [|r found']; [contradiction|].
      destruct e as [|c s]; [contradiction|]. reflexivity.
  - intros [-> | [-> | ->]];
      [now destruct found | now destruct found | reflexivity].
Qed.

(** C8: when [breaches.json] does not exist, [load_breach_data] returns
    the empty dict instead of raising, and against the dataset so loaded
    every check-breach request with a detail of length at least 8 is
    answered [{"breached": false}]. *)
Theorem missing_file_means_no_breaches (db : json)
        (request : BreachCheckRequest) (w : world) :
  load_breach_data (inl FileNotFoundError) = inr db ->
  8 <= String.length (detail request) ->
  db = JObj []
  /\ check_breach py_str db request w
     = (inr (JObj [("breached", JBool false)]), w ++ [Sleep 2]).
Proof.
  intros Hload Hlen. cbn in Hload. injection Hload as <-.
  split; [reflexivity|].
  destruct (check_breach_outcome [] request w Hlen (Forall_nil _))
    as [found [evs [Hsel [Hrun [_ Hquiet]]]]].
  inversion Hsel; subst. rewrite Hrun, (Hquiet eq_refl). reflexivity.
Qed.

(** C10: on a dataset whose entries are dicts that either lack the
    [leaked_details] key or list their leaked details, a lookup with a
    valid detail never raises: it returns the records of the selected
    entries; an entry without [leaked_details] contains no detail, and a
    [date], [risk_level] or [description] key missing from an entry is
    present with a null value in its record. *)
Theorem check_breach_total_on_missing_keys (entries : list (string * json))
        (request : BreachCheckRequest) (w : world) :
  8 <= String.length (detail request) ->
  Forall (fun entry =>
            exists kv, snd entry = JObj kv
                       /\ (lookup kv "leaked_details" = None
                           \/ well_formed (snd entry))) entries ->
  (exists found,
      fst (check_breach py_str (JObj entries) request w)
      = inr match found with
            | [] => JObj [("breached", JBool false)]
            | _ :: _ => JObj [("breached", JBool true);
                              ("breaches", JList found)]
            end
      /\ Selected (detail request) entries found)
  /\ (forall entry kv,
         In entry entries -> snd entry = JObj kv ->
         lookup kv "leaked_details" = None ->
         leaked_set (snd entry) = inr []
         /\ ~ contains (snd entry) (detail request))
  /\ (forall entry kv key,
         In entry entries -> snd entry = JObj kv ->
         In key ["date"; "risk_level"; "description"] ->
         lookup kv key = None ->
         lookup (record_fields entry) key = Some JNull).
Proof.
  intros Hlen Hentries.
  assert (Hmissing : forall info kv,
             info = JObj kv -> lookup kv "leaked_details" = None ->
             leaked_set info = inr []).
  { intros info kv -> Hnone. unfold leaked_set, get, ebind.
    now rewrite Hnone. }
  assert (Hwf : Forall (fun entry => well_formed (snd entry)) entries).
  { eapply Forall_impl; [|exact Hentries].
    intros entry [kv [Hkv [Hnone|Hok]]]; [|assumption].
    exists []. now apply Hmissing with (kv := kv). }
  split; [|split].
  - destruct (check_breach_outcome entries request w Hlen Hwf)
      as [found [evs [Hsel [Hrun _]]]].
    exists found. rewrite Hrun. split; [reflexivity|assumption].
  - intros entry kv _ Hkv Hnone.
    pose proof (Hmissing _ _ Hkv Hnone) as Hset.
    split; [assumption|].
    intros [l [Hl Hin]]. rewrite Hset in Hl. injection Hl as <-.
    contradiction.
  - intros entry kv key _ Hkv Hkey Hnone.
    unfold record_fields, field. rewrite Hkv.
    cbn in Hkey.
    destruct Hkey as [<-|[<-|[<-|[]]]]; cbn; now rewrite Hnone.
Qed.

End WithStr.

(** *** The running example and instances *)

Lemma LeakCo_well_formed :
  Forall (fun entry => well_formed (snd entry)) example_entries.
Proof.
  constructor; [|constructor]. eexists. reflexivity.
Defined.

Lemma LeakCo_contains : contains LeakCo "ACC123456".
Proof.
  eexists. split; [reflexivity|]. left. reflexivity.
Defined.

Lemma LeakCo_lacks (d : string) : d <> "ACC123456" -> ~ contains LeakCo d.
Proof.
  intros Hne [l [Hl Hin]]. cbn in Hl. injection Hl as <-.
  destruct Hin as [H|[]]. injection H as H. congruence.
Defined.

Example example_found :
  check_breach example_str (JObj example_entries)
    {| detail := "ACC123456"; email := None |} []
  = (inr (JObj [("breached", JBool true);
                ("breaches", JList [example_record])]),
     [Sleep 2]).
Proof. reflexivity. Qed.

Example example_not_found :
  check_breach example_str (JObj example_entries)
    {| detail := "NOTFOUND1"; email := None |} []
  = (inr (JObj [("breached", JBool false)]), [Sleep 2]).
Proof. reflexivity. Qed.

Example example_repeated :
  let found :=
    [example_record;
     JObj [("source", JStr "Dump"); ("date", JNull);
           ("risk_level", JNull); ("description", JNull)]] in
  let run :=
    check_breach example_str (JObj repeated_entries)
      {| detail := "ACC123456"; email := Some "a@b.c" |} [] in
  fst run = inr (JObj [("breached", JBool true); ("breaches", JList found)])
  /\ notify_calls (snd run) = [("a@b.c", found)].
Proof. split; reflexivity. Qed.

Example example_malformed_entry_raises :
  check_breach example_str (JObj [("LeakCo", LeakCo); ("Odd", JInt 3)])
    {| detail := "ACC123456"; email := None |} []
  = (inl AttributeError, []).
Proof. reflexivity. Qed.

Lemma check_breach_rejects_short_detail_witness :
  check_breach example_str (JObj example_entries)
    {| detail := "ACC1"; email := Some "a@b.c" |} []
  = (inl (HTTPException 400 "Invalid banking detail provided."), [])
  /\ http_status
       (fst (check_breach example_str (JObj example_entries)
               {| detail := "ACC1"; email := Some "a@b.c" |} [])) = 400%Z.
Proof.
  apply (check_breach_rejects_short_detail example_str (JObj example_entries)
           {| detail := "ACC1"; email := Some "a@b.c" |} []).
  right. cbn. lia.
Defined.

Lemma check_breach_reports_matches_witness :
  exists found,
    fst (check_breach example_str (JObj example_entries)
           {| detail := "ACC123456"; email := Some "a@b.c" |} [])
    = inr (JObj [("breached", JBool true); ("breaches", JList found)])
    /\ Selected "ACC123456" example_entries found
    /\ found <> []
    /\ (NoDup (map fst example_entries) -> NoDup found).
Proof.
  apply (check_breach_reports_matches example_str example_entries
           {| detail := "ACC123456"; email := Some "a@b.c" |} []).
  - cbn. lia.
  - exact LeakCo_well_formed.
  - exists ("LeakCo", LeakCo). split; [now left|exact LeakCo_contains].
Defined.

Lemma check_breach_reports_absence_witness :
  check_breach example_str (JObj example_entries)
    {| detail := "NOTFOUND1"; email := Some "a@b.c" |} []
  = (inr (JObj [("breached", JBool false)]), [Sleep 2]).
Proof.
  apply (check_breach_reports_absence example_str example_entries
           {| detail := "NOTFOUND1"; email := Some "a@b.c" |} []).
  - cbn. lia.
  - exact LeakCo_well_formed.
  - intros entry [<-|[]]. apply LeakCo_lacks. discriminate.
Defined.

Lemma check_breach_response_ignores_email_witness :
  fst (check_breach example_str (JObj example_entries)
         {| detail := "ACC123456"; email := Some "a@b.c" |} [])
  = fst (check_breach example_str (JObj example_entries)
           {| detail := "ACC123456"; email := None |} []).
Proof.
  apply (check_breach_response_ignores_email example_str
           (JObj example_entries)
           {| detail := "ACC123456"; email := Some "a@b.c" |}
           {| detail := "ACC123456"; email := None |} []).
  reflexivity.
Defined.

Lemma check_breach_notifies_nonempty_email_witness :
  exists found evs,
    Selected "ACC123456" example_entries found
    /\ snd (check_breach example_str (JObj example_entries)
              {| detail := "ACC123456"; email := Some "a@b.c" |} [])
       = [] ++ evs
    /\ (forall e,
           notify_calls evs = [(e, found)]
           <-> (Some "a@b.c" = Some e /\ e <> EmptyString /\ found <> []))
    /\ ((Some "a@b.c" = None \/ Some "a@b.c" = Some EmptyString
         \/ found = []) -> notify_calls evs = []).
Proof.
  apply (check_breach_notifies_nonempty_email example_str example_entries
           {| detail := "ACC123456"; email := Some "a@b.c" |} []).
  - cbn. lia.
  - exact LeakCo_well_formed.
Defined.

(** C6 as stated fails: an email that is present but empty, with a match,
    triggers no notification. *)
Lemma notification_skipped_for_empty_email :
  ~ notified_iff_email_and_match example_str example_entries
      {| detail := "ACC123456"; email := Some EmptyString |}.
Proof.
  intros Hclaim.
  destruct (Hclaim [example_record]) as [Hiff _].
  - apply (Selected_hit "ACC123456" ("LeakCo", LeakCo) [] []);
      [exact LeakCo_contains|constructor].
  - destruct (Hiff EmptyString) as [_ Hcall].
    assert (Hnone : notify_calls
              (snd (check_breach example_str (JObj example_entries)
                      {| detail := "ACC123456"; email := Some EmptyString |}
                      [])) = []) by reflexivity.
    rewrite Hnone in Hcall.
    discriminate Hcall. split; [reflexivity|discriminate].
Qed.

Lemma missing_file_means_no_breaches_witness :
  JObj [] = JObj []
  /\ check_breach example_str (JObj [])
       {| detail := "ACC123456"; email := None |} []
     = (inr (JObj [("breached", JBool false)]), [] ++ [Sleep 2]).
Proof.
  apply (missing_file_means_no_breaches example_str (JObj [])
           {| detail := "ACC123456"; email := None |} []).
  - reflexivity.
  - cbn. lia.
Defined.

Lemma check_breach_total_on_missing_keys_witness :
  (exists found,
      fst (check_breach example_str (JObj sparse_entries)
             {| detail := "ACC123456"; email := None |} [])
      = inr match found with
            | [] => JObj [("breached", JBool false)]
            | _ :: _ => JObj [("breached", JBool true);
                              ("breaches", JList found)]
            end
      /\ Selected "ACC123456" sparse_entries found)
  /\ (forall entry kv,
         In entry sparse_entries -> snd entry = JObj kv ->
         lookup kv "leaked_details" = None ->
         leaked_set (snd entry) = inr []
         /\ ~ contains (snd entry) "ACC123456")
  /\ (forall entry kv key,
         In entry sparse_entries -> snd entry = JObj kv ->
         In key ["date"; "risk_level"; "description"] ->
         lookup kv key = None ->
         lookup (record_fields entry) key = Some JNull).
Proof.
  apply (check_breach_total_on_missing_keys example_str sparse_entries
           {| detail := "ACC123456"; email := None |} []).
  - cbn. lia.
  - constructor; [|constructor; [|constructor]].
    + exists []. split; [reflexivity|]. left. reflexivity.
    + eexists. split; [reflexivity|]. right. eexists. reflexivity.
Defined.

End LookupProofs.

(** ** Properties of the AI summary service *)

Module SummaryProofs.
Import Py Summary Contract.
Local Open Scope exc_scope.
Local Open Scope m_scope.

Ltac run :=
  cbv [bind ret raise emit lift post try_except ebind] in *;
  cbn [fst snd] in *.

Section WithProvider.

Variable py_str : json -> string.
Variable requests_post : string -> json -> Exc Response.

(** Once the credential and the data pass the two guards and the prompt
    is rendered, the handler is the guarded provider call. *)
Lemma summarize_reaches_provider (k : string) (request : AISummaryRequest)
      (text : string) :
  k <> EmptyString ->
  breach_data request <> [] ->
  render_breaches py_str 1 (breach_data request) EmptyString = inr text ->
  summarize_breach_with_ai py_str requests_post (Some k) request
  = try_except (call_provider requests_post k text) on_exception.
Proof.
  intros Hk Hdata Htext. unfold summarize_breach_with_ai.
  destruct k as [|c k']; [contradiction|].
  destruct (breach_data request) as [|b rest] eqn:Hb; [contradiction|].
  cbn [truthy negb]. rewrite Htext. reflexivity.
Qed.

(** C3, amended: a summarize-breach request made while the API
    credential is unset or empty fails with the 500 "Google API key not
    configured." error whatever its [breach_data]; a request with an empty
    [breach_data] made while the credential is configured fails with the
    400 "No breach data provided." error.  Neither reaches the provider. *)
Theorem summarize_checks_credential_then_data (GOOGLE_API_KEY : option string)
        (request : AISummaryRequest) (w : world) :
  GOOGLE_API_KEY = None \/ GOOGLE_API_KEY = Some EmptyString
  \/ breach_data request = [] ->
  summarize_breach_with_ai py_str requests_post GOOGLE_API_KEY request w
  = (inl match GOOGLE_API_KEY with
         | Some (String _ _) => HTTPException 400 "No breach data provided."
         | _ => HTTPException 500 "Google API key not configured."
         end, w)
  /\ http_status (fst (summarize_breach_with_ai py_str requests_post GOOGLE_API_KEY request w))
     = match GOOGLE_API_KEY with
       | Some (String _ _) => 400%Z
       | _ => 500%Z
       end.
Proof.
  intros H. unfold summarize_breach_with_ai.
  destruct GOOGLE_API_KEY as [[|c k]|].
  - split; reflexivity.
  - destruct H as [H|[H|H]]; try discriminate.
    rewrite H. split; reflexivity.
  - split; reflexivity.
Qed.

(** C7: when the request to the provider is made and [requests] raises a
    [RequestException], from [post] (connection error) or from
    [raise_for_status] (rejected status), summarize-breach fails with
    status 503 and a message that ends with the text of that exception. *)
Theorem summarize_upstream_failure_is_503 (k : string)
        (request : AISummaryRequest) (text msg : string) (w : world) :
  k <> EmptyString ->
  breach_data request <> [] ->
  render_breaches py_str 1 (breach_data request) EmptyString = inr text ->
  requests_post (api_url k) (payload text) = inl (RequestException msg)
  \/ (exists response,
         requests_post (api_url k) (payload text) = inr response
         /\ raise_for_status response = inl (RequestException msg)) ->
  summarize_breach_with_ai py_str requests_post (Some k) request w
  = (inl (HTTPException 503
            ("Error communicating with the AI service: " ++ msg)%string),
     w ++ [Post (api_url k) (payload text);
           PrintExc "Error calling Gemini API: " (RequestException msg)])
  /\ http_status (fst (summarize_breach_with_ai py_str requests_post (Some k) request w)) = 503%Z.
Proof.
  intros Hk Hdata Htext Hfail.
  rewrite (summarize_reaches_provider k request text Hk Hdata Htext).
  unfold call_provider. run.
  destruct Hfail as [Hpost|[response [Hpost Hstatus]]]; rewrite Hpost.
  - cbn [on_exception]. run. rewrite <- app_assoc. split; reflexivity.
  - rewrite Hstatus. cbn [on_exception]. run. rewrite <- app_assoc.
    split; reflexivity.
Qed.

(** C4, what the code does: when the provider answers successfully but
    the extracted text is empty or missing, the 500 "Failed to get a valid
    response from AI model." error is raised inside the [try], caught by
    the [except Exception] clause and replaced: the caller gets the
    generic 500 internal error, and the UpstreamEmptyResponse error shows
    only in the printed line. *)
Theorem summarize_empty_answer_is_generic_error (k : string)
        (request : AISummaryRequest) (text : string)
        (response : Response) (result content : json) (w : world) :
  k <> EmptyString ->
  breach_data request <> [] ->
  render_breaches py_str 1 (breach_data request) EmptyString = inr text ->
  requests_post (api_url k) (payload text) = inr response ->
  raise_for_status response = inr tt ->
  response_json response = inr result ->
  extract_content result = inr content ->
  truthy content = false ->
  summarize_breach_with_ai py_str requests_post (Some k) request w
  = (inl (HTTPException 500
            "An internal error occurred while processing the AI summary."),
     w ++ [Post (api_url k) (payload text);
           PrintExc "An unexpected error occurred: "
             (HTTPException 500
                "Failed to get a valid response from AI model.")]).
Proof.
  intros Hk Hdata Htext Hpost Hstatus Hjson Hcontent Hempty.
  rewrite (summarize_reaches_provider k request text Hk Hdata Htext).
  unfold call_provider. run.
  rewrite Hpost, Hstatus, Hjson, Hcontent, Hempty. cbn [negb on_exception].
  run. rewrite <- app_assoc. reflexivity.
Qed.

(** A provider answer with text is returned as the summary. *)
Lemma summarize_returns_text (k : string) (request : AISummaryRequest)
      (text : string) (response : Response) (result content : json)
      (w : world) :
  k <> EmptyString ->
  breach_data request <> [] ->
  render_breaches py_str 1 (breach_data request) EmptyString = inr text ->
  requests_post (api_url k) (payload text) = inr response ->
  raise_for_status response = inr tt ->
  response_json response = inr result ->
  extract_content result = inr content ->
  truthy content = true ->
  summarize_breach_with_ai py_str requests_post (Some k) request w
  = (inr (JObj [("summary", content)]),
     w ++ [Post (api_url k) (payload text)]).
Proof.
  intros Hk Hdata Htext Hpost Hstatus Hjson Hcontent Hfull.
  rewrite (summarize_reaches_provider k request text Hk Hdata Htext).
  unfold call_provider. run.
  rewrite Hpost, Hstatus, Hjson, Hcontent, Hfull. reflexivity.
Qed.

End WithProvider.

(** *** Instances *)

Example example_text_value :
  example_text
  = ("Breach 1:" ++ Lookup.nl
     ++ "- Source: LeakCo" ++ Lookup.nl
     ++ "- Date: 2023-01-01" ++ Lookup.nl
     ++ "- Risk Level: high" ++ Lookup.nl
     ++ "- Description: x" ++ Lookup.nl ++ Lookup.nl)%string.
Proof. reflexivity. Qed.

Lemma summarize_checks_credential_then_data_witness :
  summarize_breach_with_ai example_str provider_down (Some "k3y")
    {| breach_data := [] |} []
  = (inl (HTTPException 400 "No breach data provided."), [])
  /\ http_status
       (fst (summarize_breach_with_ai example_str provider_down (Some "k3y")
               {| breach_data := [] |} [])) = 400%Z.
Proof.
  apply (summarize_checks_credential_then_data example_str provider_down
           (Some "k3y") {| breach_data := [] |} []).
  right. right. reflexivity.
Defined.

(** C3 as stated fails: with the credential missing, an empty
    [breach_data] is answered with status 500, not 400. *)
Lemma empty_data_without_credential_is_500 :
  ~ empty_data_is_400 example_str provider_down None {| breach_data := [] |}.
Proof.
  intros Hclaim. specialize (Hclaim eq_refl). cbn in Hclaim. discriminate.
Qed.

Lemma summarize_upstream_failure_is_503_witness :
  summarize_breach_with_ai example_str provider_down (Some "k3y")
    {| breach_data := [example_record] |} []
  = (inl (HTTPException 503
            ("Error communicating with the AI service: "
             ++ "connection refused")%string),
     [] ++ [Post (api_url "k3y") (payload example_text);
            PrintExc "Error calling Gemini API: "
              (RequestException "connection refused")])
  /\ http_status
       (fst (summarize_breach_with_ai example_str provider_down (Some "k3y")
               {| breach_data := [example_record] |} [])) = 503%Z.
Proof.
  apply (summarize_upstream_failure_is_503 example_str provider_down "k3y"
           {| breach_data := [example_record] |} example_text
           "connection refused" []).
  - discriminate.
  - discriminate.
  - reflexivity.
  - left. reflexivity.
Defined.

Example rejected_status_is_503 :
  fst (summarize_breach_with_ai example_str provider_rejects (Some "k3y")
         {| breach_data := [example_record] |} [])
  = inl (HTTPException 503
           "Error communicating with the AI service: 429 Client Error: Too Many Requests").
Proof. reflexivity. Qed.

Lemma summarize_empty_answer_is_generic_error_witness :
  summarize_breach_with_ai example_str (provider_answers (JObj []))
    (Some "k3y") {| breach_data := [example_record] |} []
  = (inl (HTTPException 500
            "An internal error occurred while processing the AI summary."),
     [] ++ [Post (api_url "k3y") (payload example_text);
            PrintExc "An unexpected error occurred: "
              (HTTPException 500
                 "Failed to get a valid response from AI model.")]).
Proof.
  apply (summarize_empty_answer_is_generic_error example_str
           (provider_answers (JObj [])) "k3y"
           {| breach_data := [example_record] |} example_text
           {| raise_for_status := inr tt; response_json := inr (JObj []) |}
           (JObj []) (JStr EmptyString) []).
  - discriminate.
  - discriminate.
  - reflexivity.
  - reflexivity.
  - reflexivity.
  - reflexivity.
  - reflexivity.
  - reflexivity.
Defined.

Example empty_text_part_is_generic_error :
  fst (summarize_breach_with_ai example_str
         (provider_answers
            (JObj [("candidates",
                    JList [JObj [("content",
                                  JObj [("parts",
                                         JList [JObj [("text", JStr EmptyString)]])])]])]))
         (Some "k3y") {| breach_data := [example_record] |} [])
  = inl (HTTPException 500
           "An internal error occurred while processing the AI summary.").
Proof. reflexivity. Qed.

Example answer_with_text_is_returned :
  fst (summarize_breach_with_ai example_str
         (provider_answers
            (JObj [("candidates",
                    JList [JObj [("content",
                                  JObj [("parts",
                                         JList [JObj [("text", JStr "Stay calm.")]])])]])]))
         (Some "k3y") {| breach_data := [example_record] |} [])
  = inr (JObj [("summary", JStr "Stay calm.")]).
Proof. reflexivity. Qed.

End SummaryProofs.

(** ** Further properties of the lookup service *)

Module LookupExtras.
Import Py Lookup Contract.
Local Open Scope exc_scope.
Local Open Scope m_scope.

Ltac step :=
  cbv [bind ret raise emit lift print try_except ebind] in *;
  cbn [fst snd] in *.

Lemma printed_map_Print (lines : list string) :
  printed (map Print lines) = lines.
Proof. induction lines as [|l lines IH]; cbn; [|rewrite IH]; reflexivity. Qed.

Lemma sleeps_map_Print (lines : list string) : sleeps (map Print lines) = [].
Proof. induction lines as [|l lines IH]; cbn; [reflexivity|exact IH]. Qed.

Lemma notify_calls_map_Print (lines : list string) :
  notify_calls (map Print lines) = [].
Proof. induction lines as [|l lines IH]; cbn; [reflexivity|exact IH]. Qed.

Lemma get_field_or (kv : list (string * json)) (key : string) (default : json) :
  get (JObj kv) key default = inr (field_or (JObj kv) key default).
Proof. unfold get, field_or. destruct (lookup kv key); reflexivity. Qed.

Section WithStr.

Variable py_str : json -> string.

Lemma print_breaches_lines (breaches : list json) :
  Forall is_dict breaches ->
  forall w,
    print_breaches py_str breaches w
    = (inr tt, w ++ map Print (flat_map (breach_lines py_str) breaches)).
Proof.
  induction 1 as [|breach rest [kv ->] _ IH]; intros w.
  - cbn. now rewrite app_nil_r.
  - cbn [print_breaches]. step. rewrite !get_field_or.
    rewrite IH. cbn [flat_map breach_lines app map].
    rewrite <- !app_assoc. reflexivity.
Qed.

Lemma send_breach_notification_lines (e : string) (breaches : list json) :
  Forall is_dict breaches ->
  forall w,
    send_breach_notification py_str e breaches w
    = (inr tt,
       w ++ Notify e breaches :: map Print (notification_lines py_str e breaches)).
Proof.
  intros Hd w. unfold send_breach_notification. step.
  rewrite (print_breaches_lines breaches Hd).
  unfold notification_lines. rewrite !map_app. cbn [map app].
  rewrite <- !app_assoc. reflexivity.
Qed.

(** A request that passes the guard, whatever the dataset is: the handler
    fails where [items] or the loop fails, and otherwise returns after the
    events of [lookup_events]. *)
Lemma check_breach_valid (db : json) (request : BreachCheckRequest)
      (w : world) :
  8 <= String.length (detail request) ->
  check_breach py_str db request w
  = match items db with
    | inl e => (inl e, w)
    | inr entries =>
        match scan (detail request) entries [] with
        | inl e => (inl e, w)
        | inr found =>
            (inr match found with
                 | [] => not_breached_body
                 | _ :: _ => breached_body found
                 end,
             w ++ lookup_events py_str (email request) found)
        end
    end.
Proof.
  intros Hlen. unfold check_breach.
  destruct (detail request) as [|c0 d0] eqn:Hdet; [cbn in Hlen; lia|].
  cbn [truthy negb orb].
  destruct (Nat.ltb_spec (String.length (String c0 d0)) 8) as [Hlt|_]; [lia|].
  step. destruct (items db) as [e|entries]; [reflexivity|].
  destruct (scan (String c0 d0) entries []) as [e|found] eqn:Hscan;
    [reflexivity|].
  pose proof (LookupProofs.scan_dicts _ _ _ _ (Forall_nil _) Hscan) as Hd.
  unfold lookup_events.
  destruct found as [|r found']; cbn [truthy]; [reflexivity|].
  destruct (email request) as [[|c s]|]; [reflexivity| |reflexivity].
  rewrite (send_breach_notification_lines (String c s) (r :: found') Hd).
  rewrite <- app_assoc. reflexivity.
Qed.

Lemma check_breach_short (db : json) (request : BreachCheckRequest)
      (w : world) :
  String.length (detail request) < 8 ->
  check_breach py_str db request w
  = (inl (HTTPException 400 "Invalid banking detail provided."), w).
Proof.
  intros Hshort. unfold check_breach.
  apply Nat.ltb_lt in Hshort. now rewrite Hshort, orb_true_r.
Qed.

End WithStr.

Lemma any_leaked_exn (d : string) (info : json) (e : exn) :
  any_leaked d info = inl e -> e = AttributeError \/ e = TypeError.
Proof.
  unfold any_leaked, get, iter, ebind.
  destruct info; try (intros H; injection H as <-; now left).
  destruct (lookup kv "leaked_details") as [[]|];
    intros H; try discriminate; injection H as <-; now right.
Qed.

Lemma scan_exn (d : string) (entries : list (string * json)) :
  forall acc e, scan d entries acc = inl e ->
                e = AttributeError \/ e = TypeError.
Proof.
  induction entries as [|[name info] rest IH]; intros acc e Hscan.
  - discriminate.
  - cbn [scan] in Hscan. unfold ebind in Hscan.
    destruct (any_leaked d info) as [e'|[|]] eqn:Hany.
    + injection Hscan as <-. exact (any_leaked_exn _ _ _ Hany).
    + destruct (found_record name info) as [e'|r] eqn:Hr.
      * injection Hscan as <-. left.
        unfold found_record, get, ebind in Hr.
        destruct info; try (now injection Hr as <-).
        destruct (lookup kv "date"), (lookup kv "risk_level"),
          (lookup kv "description"); discriminate.
      * exact (IH _ _ Hscan).
    + exact (IH _ _ Hscan).
Qed.

Lemma scan_ok_well_formed (d : string) (entries : list (string * json)) :
  forall acc found, scan d entries acc = inr found ->
                    Forall (fun entry => well_formed (snd entry)) entries.
Proof.
  induction entries as [|[name info] rest IH]; intros acc found Hscan.
  - constructor.
  - cbn [scan] in Hscan. unfold ebind in Hscan.
    destruct (any_leaked d info) as [e'|hit] eqn:Hany; [discriminate|].
    constructor.
    + cbn [snd]. rewrite LookupProofs.any_leaked_as_set in Hany.
      unfold well_formed, ebind in *.
      destruct (leaked_set info) as [e'|l]; [discriminate|now exists l].
    + destruct hit.
      * destruct (found_record name info); [discriminate|].
        exact (IH _ _ Hscan).
      * exact (IH _ _ Hscan).
Qed.

Lemma chars_single (d s : string) :
  In (JStr d) (chars s) -> String.length d = 1.
Proof.
  induction s as [|c s IH]; cbn; [contradiction|].
  intros [H|H]; [injection H as <-; reflexivity|exact (IH H)].
Qed.

Lemma print_breaches_non_dict (py_str : json -> string)
      (breaches : list json) :
  Exists (fun breach => ~ is_dict breach) breaches ->
  forall w, fst (print_breaches py_str breaches w) = inl AttributeError.
Proof.
  induction breaches as [|breach rest IH]; intros Hex w.
  - inversion Hex.
  - cbn [print_breaches]. step.
    destruct breach; try reflexivity.
    cbn [get]. inversion Hex as [? ? Hhd|? ? Htl]; subst.
    + exfalso. apply Hhd. now exists kv.
    + destruct (lookup kv "source"), (lookup kv "date"); now apply IH.
Qed.

(** *** The loader *)



(** *** The matching test *)

(** X2: when an entry's [leaked_details] is a str instead of a list, the
    test compares the detail with its single characters, so no detail of
    two or more characters matches, not even the str itself. *)
Theorem str_leaked_details_never_match (d : string)
        (kv : list (string * json)) (s : string) :
  lookup kv "leaked_details" = Some (JStr s) ->
  2 <= String.length d ->
  any_leaked d (JObj kv) = inr false.
Proof.
  intros Hkey Hlen. unfold any_leaked, get, iter, ebind. rewrite Hkey.
  f_equal. destruct (existsb (str_eq d) (chars s)) eqn:E; [|reflexivity].
  apply LookupProofs.existsb_str_eq in E. apply chars_single in E. lia.
Qed.

Lemma str_leaked_details_never_match_witness :
  any_leaked "ACC123456" (JObj [("leaked_details", JStr "ACC123456")])
  = inr false.
Proof.
  apply (str_leaked_details_never_match "ACC123456"
           [("leaked_details", JStr "ACC123456")] "ACC123456").
  - reflexivity.
  - cbn. lia.
Defined.

(** X3: when an entry's [leaked_details] is a dict, the test runs over its
    keys: the detail matches exactly when it is one of the keys. *)
Theorem dict_leaked_details_match_keys (d : string)
        (kv keys : list (string * json)) :
  lookup kv "leaked_details" = Some (JObj keys) ->
  any_leaked d (JObj kv) = inr true <-> In d (map fst keys).
Proof.
  intros Hkey. unfold any_leaked, get, iter, ebind. rewrite Hkey. split.
  - intros H. injection H as H. apply LookupProofs.existsb_str_eq in H.
    apply in_map_iff in H. destruct H as [p [Hp Hin]].
    injection Hp as <-. now apply in_map.
  - intros H. f_equal. apply LookupProofs.existsb_str_eq.
    apply in_map_iff in H. destruct H as [p [<- Hin]].
    apply in_map_iff. now exists p.
Qed.

Lemma dict_leaked_details_match_keys_witness :
  any_leaked "ACC123456"
    (JObj [("leaked_details", JObj [("ACC123456", JInt 1)])]) = inr true
  <-> In "ACC123456" (map fst [("ACC123456", JInt 1)]).
Proof.
  apply (dict_leaked_details_match_keys "ACC123456"
           [("leaked_details", JObj [("ACC123456", JInt 1)])]
           [("ACC123456", JInt 1)]).
  reflexivity.
Defined.

(** *** The loop *)

(** X4: the loop over a dataset made of two parts is the loop over the
    first part followed by the loop over the second, started from what
    the first found; a failure in the first part is the failure of the
    whole. *)
Theorem scan_app (d : string) (entries1 entries2 : list (string * json))
        (acc : list json) :
  scan d (entries1 ++ entries2) acc
  = (let? found := scan d entries1 acc in scan d entries2 found).
Proof.
  revert acc. induction entries1 as [|[name info] rest IH]; intros acc.
  - reflexivity.
  - cbn [app scan]. unfold ebind.
    destruct (any_leaked d info) as [e|[|]]; [reflexivity| |].
    + destruct (found_record name info) as [e|r]; [reflexivity|]. apply IH.
    + apply IH.
Qed.



Lemma length_breach_lines (py_str : json -> string) (breaches : list json) :
  List.length (flat_map (breach_lines py_str) breaches)
  = 2 * List.length breaches.
Proof.
  induction breaches as [|b rest IH]; [reflexivity|].
  cbn [flat_map breach_lines app List.length]. rewrite IH. lia.
Qed.

Lemma records_are_dicts (entries : list (string * json)) :
  Forall is_dict (map record_of entries).
Proof.
  induction entries as [|entry rest IH]; constructor; [|exact IH].
  now exists (record_fields entry).
Qed.

Section Handler.

Variable py_str : json -> string.

(** *** The handler on any dataset *)

(** X6: when the loaded dataset is not a dict (a JSON array, say), every
    request with a valid detail fails with [AttributeError], which the
    framework answers with status 500, before any pause. *)
Theorem check_breach_needs_dict (db : json) (request : BreachCheckRequest)
        (w : world) :
  8 <= String.length (detail request) ->
  (forall kv, db <> JObj kv) ->
  check_breach py_str db request w = (inl AttributeError, w)
  /\ http_status (fst (check_breach py_str db request w)) = 500%Z.
Proof.
  intros Hlen Hdb. rewrite (check_breach_valid py_str db request w Hlen).
  destruct db; try (split; reflexivity).
  exfalso. exact (Hdb kv eq_refl).
Qed.

(** X7: on a dataset that is a dict, a request with a valid detail is
    answered normally if and only if every entry lists its leaked
    details; one entry that does not makes the request fail, also when
    the detail is found in other entries. *)
Theorem check_breach_returns_iff_well_formed (entries : list (string * json))
        (request : BreachCheckRequest) (w : world) :
  8 <= String.length (detail request) ->
  (exists body, fst (check_breach py_str (JObj entries) request w) = inr body)
  <-> Forall (fun entry => well_formed (snd entry)) entries.
Proof.
  intros Hlen.
  rewrite (check_breach_valid py_str (JObj entries) request w Hlen).
  cbn [items]. split.
  - intros [body Hbody].
    destruct (scan (detail request) entries []) as [e|found] eqn:Hscan;
      [discriminate|].
    exact (scan_ok_well_formed _ _ _ _ Hscan).
  - intros Hwf.
    destruct (LookupProofs.scan_selected (detail request) entries Hwf [])
      as [found [-> _]].
    eexists. reflexivity.
Qed.

(** X8: a check-breach request that fails, for whatever reason, has done
    nothing: no pause was taken and no notification was sent. *)
Theorem check_breach_failure_has_no_effect (db : json)
        (request : BreachCheckRequest) (w : world) (e : exn) :
  fst (check_breach py_str db request w) = inl e ->
  snd (check_breach py_str db request w) = w.
Proof.
  destruct (Nat.lt_ge_cases (String.length (detail request)) 8) as [Hs|Hl].
  - now rewrite (check_breach_short py_str db request w Hs).
  - rewrite (check_breach_valid py_str db request w Hl).
    destruct (items db) as [e'|entries]; [reflexivity|].
    destruct (scan (detail request) entries []) as [e'|found];
      [reflexivity|discriminate].
Qed.

(** X9: check-breach answers with status 400 exactly for the details
    shorter than 8 characters: no dataset, however ill-formed, makes a
    request with a valid detail end in a 400. *)
Theorem check_breach_400_iff_short (db : json) (request : BreachCheckRequest)
        (w : world) :
  http_status (fst (check_breach py_str db request w)) = 400%Z
  <-> String.length (detail request) < 8.
Proof.
  destruct (Nat.lt_ge_cases (String.length (detail request)) 8) as [Hs|Hl].
  - rewrite (check_breach_short py_str db request w Hs).
    split; [intros _; assumption|reflexivity].
  - rewrite (check_breach_valid py_str db request w Hl).
    split; [|lia]. intros H. exfalso.
    destruct (items db) as [e|entries] eqn:Hitems.
    + destruct db; cbn in Hitems; try discriminate;
        injection Hitems as <-; discriminate.
    + destruct (scan (detail request) entries []) as [e|found] eqn:Hscan.
      * destruct (scan_exn _ _ _ _ Hscan) as [-> | ->]; discriminate.
      * discriminate.
Qed.

(** X10: a check-breach request that is answered normally took exactly
    one pause, of 2 seconds, and took it before anything else it did. *)
Theorem check_breach_pauses_once (db : json) (request : BreachCheckRequest)
        (w : world) (body : json) :
  fst (check_breach py_str db request w) = inr body ->
  exists evs,
    snd (check_breach py_str db request w) = w ++ Sleep 2 :: evs
    /\ sleeps evs = [].
Proof.
  destruct (Nat.lt_ge_cases (String.length (detail request)) 8) as [Hs|Hl].
  - now rewrite (check_breach_short py_str db request w Hs).
  - rewrite (check_breach_valid py_str db request w Hl).
    destruct (items db) as [e'|entries]; [discriminate|].
    destruct (scan (detail request) entries []) as [e'|found];
      [discriminate|].
    intros _. unfold lookup_events. eexists. split; [reflexivity|].
    destruct found as [|r found']; [reflexivity|].
    destruct (email request) as [[|c s]|]; try reflexivity.
    cbn [sleeps]. apply sleeps_map_Print.
Qed.

(** *** The notification stub *)

(** X11: on breaches that are dicts the stub does not fail: it is one
    notification, prints 8 lines plus 2 per breach, and takes no pause. *)
Theorem send_breach_notification_output (e : string) (breaches : list json)
        (w : world) :
  Forall is_dict breaches ->
  exists evs,
    send_breach_notification py_str e breaches w = (inr tt, w ++ evs)
    /\ notify_calls evs = [(e, breaches)]
    /\ List.length (printed evs) = 8 + 2 * List.length breaches
    /\ sleeps evs = [].
Proof.
  intros Hd. rewrite (send_breach_notification_lines py_str e breaches Hd).
  eexists. split; [reflexivity|].
  cbn [notify_calls printed sleeps].
  rewrite notify_calls_map_Print, printed_map_Print, sleeps_map_Print.
  split; [reflexivity|]. split; [|reflexivity].
  unfold notification_lines. rewrite !length_app, length_breach_lines.
  cbn [List.length]. lia.
Qed.

(** X12: a breach that is not a dict makes the stub fail with
    [AttributeError]. *)
Theorem send_breach_notification_needs_dicts (e : string)
        (breaches : list json) (w : world) :
  Exists (fun breach => ~ is_dict breach) breaches ->
  fst (send_breach_notification py_str e breaches w) = inl AttributeError.
Proof.
  intros Hex. unfold send_breach_notification. step.
  match goal with
  | |- context [print_breaches py_str breaches ?w'] =>
      pose proof (print_breaches_non_dict py_str breaches Hex w') as Hfail;
      destruct (print_breaches py_str breaches w') as [[e'|u] w'']
  end; cbn [fst] in Hfail; [|discriminate].
  injection Hfail as ->. reflexivity.
Qed.

(** X13: for the records the lookup builds, the "N/A" fallbacks of the
    stub are never used: the Source line shows the entry's name and the
    Date line shows the rendering of the entry's date, which is the
    rendering of null when the entry has no date. *)
Theorem print_breaches_of_records (entries : list (string * json))
        (w : world) :
  print_breaches py_str (map record_of entries) w
  = (inr tt,
     w ++ map Print
       (flat_map
          (fun entry =>
             [("  - Source: " ++ py_str (JStr (fst entry)))%string;
              ("  - Date: " ++ py_str (field (snd entry) "date"))%string])
          entries)).
Proof.
  rewrite (print_breaches_lines py_str _ (records_are_dicts entries)).
  do 3 f_equal. induction entries as [|entry rest IH]; [reflexivity|].
  cbn [map flat_map]. rewrite IH. reflexivity.
Qed.

End Handler.

Lemma check_breach_needs_dict_witness :
  check_breach example_str (JList [LeakCo])
    {| detail := "ACC123456"; email := None |} []
  = (inl AttributeError, [])
  /\ http_status
       (fst (check_breach example_str (JList [LeakCo])
               {| detail := "ACC123456"; email := None |} [])) = 500%Z.
Proof.
  apply (check_breach_needs_dict example_str (JList [LeakCo])
           {| detail := "ACC123456"; email := None |} []).
  - cbn. lia.
  - discriminate.
Defined.

Lemma check_breach_returns_iff_well_formed_witness :
  (exists body,
      fst (check_breach example_str
             (JObj [("LeakCo", LeakCo); ("Odd", JObj [("leaked_details", JNull)])])
             {| detail := "ACC123456"; email := None |} []) = inr body)
  <-> Forall (fun entry => well_formed (snd entry))
        [("LeakCo", LeakCo); ("Odd", JObj [("leaked_details", JNull)])].
Proof.
  apply (check_breach_returns_iff_well_formed example_str
           [("LeakCo", LeakCo); ("Odd", JObj [("leaked_details", JNull)])]
           {| detail := "ACC123456"; email := None |} []).
  cbn. lia.
Defined.

Lemma check_breach_failure_has_no_effect_witness :
  snd (check_breach example_str
         (JObj [("LeakCo", LeakCo); ("Odd", JObj [("leaked_details", JNull)])])
         {| detail := "ACC123456"; email := Some "a@b.c" |} []) = [].
Proof.
  apply (check_breach_failure_has_no_effect example_str
           (JObj [("LeakCo", LeakCo); ("Odd", JObj [("leaked_details", JNull)])])
           {| detail := "ACC123456"; email := Some "a@b.c" |} [] TypeError).
  reflexivity.
Defined.

Lemma check_breach_pauses_once_witness :
  exists evs,
    snd (check_breach example_str (JObj example_entries)
           {| detail := "ACC123456"; email := Some "a@b.c" |} [])
    = [] ++ Sleep 2 :: evs
    /\ sleeps evs = [].
Proof.
  apply (check_breach_pauses_once example_str (JObj example_entries)
           {| detail := "ACC123456"; email := Some "a@b.c" |} []
           (breached_body [example_record])).
  reflexivity.
Defined.

Lemma send_breach_notification_output_witness :
  exists evs,
    send_breach_notification example_str "a@b.c" [example_record] []
    = (inr tt, [] ++ evs)
    /\ notify_calls evs = [("a@b.c", [example_record])]
    /\ List.length (printed evs) = 8 + 2 * List.length [example_record]
    /\ sleeps evs = [].
Proof.
  apply (send_breach_notification_output example_str "a@b.c"
           [example_record] []).
  constructor; [|constructor]. eexists. reflexivity.
Defined.

Lemma send_breach_notification_needs_dicts_witness :
  fst (send_breach_notification example_str "a@b.c"
         [example_record; JStr "LeakCo"] []) = inl AttributeError.
Proof.
  apply (send_breach_notification_needs_dicts example_str "a@b.c"
           [example_record; JStr "LeakCo"] []).
  apply Exists_cons_tl. apply Exists_cons_hd.
  intros [kv H]. discriminate.
Defined.

End LookupExtras.

(** ** Further properties of the AI summary service *)

Module SummaryExtras.
Import Py Summary Contract.
Local Open Scope exc_scope.
Local Open Scope m_scope.

Ltac step :=
  cbv [bind ret raise emit lift post try_except ebind] in *;
  cbn [fst snd] in *.

Lemma string_app_assoc (a b c : string) :
  ((a ++ b) ++ c)%string = (a ++ (b ++ c))%string.
Proof. induction a as [|x a IH]; cbn; [|rewrite IH]; reflexivity. Qed.

Lemma string_app_nil_r (a : string) : (a ++ EmptyString)%string = a.
Proof. induction a as [|x a IH]; cbn; [|rewrite IH]; reflexivity. Qed.

Lemma extract_content_exn (result : json) (e : exn) :
  extract_content result = inl e ->
  e = AttributeError \/ e = TypeError \/ e = IndexError \/ e = KeyError.
Proof.
  assert (Hget : forall x key default e',
             get x key default = inl e' -> e' = AttributeError).
  { intros x key default e'. unfold get.
    destruct x; try (intros H; now injection H as <-).
    destruct (lookup kv key); discriminate. }
  assert (Hidx : forall x e',
             index0 x = inl e' ->
             e' = TypeError \/ e' = IndexError \/ e' = KeyError).
  { intros x e'. unfold index0.
    destruct x as [| | | |[|c t]|[|a l]|kv]; intros H; try discriminate;
      injection H as <-; auto. }
  unfold extract_content, ebind.
  destruct (get result "candidates" (JList [JObj []])) as [e1|candidates] eqn:H1.
  { intros H. injection H as <-. left. exact (Hget _ _ _ _ H1). }
  destruct (index0 candidates) as [e2|candidate] eqn:H2.
  { intros H. injection H as <-. right. exact (Hidx _ _ H2). }
  destruct (get candidate "content" (JObj [])) as [e3|content] eqn:H3.
  { intros H. injection H as <-. left. exact (Hget _ _ _ _ H3). }
  destruct (get content "parts" (JList [JObj []])) as [e4|parts] eqn:H4.
  { intros H. injection H as <-. left. exact (Hget _ _ _ _ H4). }
  destruct (index0 parts) as [e5|part] eqn:H5.
  { intros H. injection H as <-. right. exact (Hidx _ _ H5). }
  intros H. left. exact (Hget _ _ _ _ H).
Qed.

Section WithProvider.

Variable py_str : json -> string.
Variable requests_post : string -> json -> Exc Response.

Lemma render_breaches_dicts (breaches : list json) :
  Forall is_dict breaches ->
  forall i acc,
    render_breaches py_str i breaches acc
    = inr (acc ++ breach_blocks py_str i breaches)%string.
Proof.
  induction 1 as [|breach rest [kv ->] _ IH]; intros i acc.
  - cbn. now rewrite string_app_nil_r.
  - cbn [render_breaches breach_blocks].
    rewrite !LookupExtras.get_field_or. cbn [ebind].
    rewrite IH, string_app_assoc. reflexivity.
Qed.

Lemma render_breaches_non_dict (breaches : list json) :
  Exists (fun breach => ~ is_dict breach) breaches ->
  forall i acc, render_breaches py_str i breaches acc = inl AttributeError.
Proof.
  induction breaches as [|breach rest IH]; intros Hex i acc.
  - inversion Hex.
  - cbn [render_breaches].
    destruct breach; try reflexivity.
    rewrite !LookupExtras.get_field_or. cbn [ebind].
    inversion Hex as [? ? Hhd|? ? Htl]; subst.
    + exfalso. apply Hhd. now exists kv.
    + now apply IH.
Qed.

Lemma render_breaches_exn (breaches : list json) :
  forall i acc e,
    render_breaches py_str i breaches acc = inl e -> e = AttributeError.
Proof.
  induction breaches as [|breach rest IH]; intros i acc e H.
  - discriminate.
  - cbn [render_breaches] in H.
    destruct breach; try (cbn in H; now injection H as <-).
    rewrite !LookupExtras.get_field_or in H. cbn [ebind] in H.
    exact (IH _ _ _ H).
Qed.

Lemma guarded_call_outcome (k text : string) (w : world) :
  guarded_outcome requests_post k text w
    (try_except (call_provider requests_post k text) on_exception w).
Proof.
  unfold call_provider. step.
  destruct (requests_post (api_url k) (payload text)) as [e|response] eqn:Hpost.
  { destruct e; cbn [on_exception]; step; rewrite <- app_assoc;
      try (apply ends_internal; discriminate).
    apply ends_unavailable. now left. }
  destruct (raise_for_status response) as [e|[]] eqn:Hstatus.
  { destruct e; cbn [on_exception]; step; rewrite <- app_assoc;
      try (apply ends_internal; discriminate).
    apply ends_unavailable. right. exists response. auto. }
  destruct (response_json response) as [e|result] eqn:Hjson.
  { destruct e; cbn [on_exception]; step; rewrite <- app_assoc;
      try (apply ends_internal; discriminate).
    apply ends_unavailable. right. exists response. auto. }
  destruct (extract_content result) as [e|content] eqn:Hcontent.
  { destruct (extract_content_exn _ _ Hcontent) as [-> | [-> | [-> | ->]]];
      cbn [on_exception]; step; rewrite <- app_assoc;
      apply ends_internal; discriminate. }
  destruct (truthy content) eqn:Htruthy; cbn [negb].
  - now apply ends_with_summary with (response := response) (result := result).
  - cbn [on_exception]. step. rewrite <- app_assoc.
    apply ends_internal. discriminate.
Qed.

(** Every way the handler ends: at a guard, while rendering the prompt,
    or at the end of the guarded provider call. *)
Lemma summarize_outcome (GOOGLE_API_KEY : option string)
      (request : AISummaryRequest) (w : world) :
  let run := summarize_breach_with_ai py_str requests_post GOOGLE_API_KEY
               request w in
  run = (inl (HTTPException 500 "Google API key not configured."), w)
  \/ run = (inl (HTTPException 400 "No breach data provided."), w)
  \/ run = (inl AttributeError, w)
  \/ exists k text,
      GOOGLE_API_KEY = Some k
      /\ render_breaches py_str 1 (breach_data request) EmptyString
         = inr text
      /\ guarded_outcome requests_post k text w run.
Proof.
  unfold summarize_breach_with_ai.
  destruct GOOGLE_API_KEY as [[|c k]|]; cbn [truthy negb]; auto.
  destruct (breach_data request) as [|b rest] eqn:Hdata; cbn [truthy negb];
    auto.
  step.
  destruct (render_breaches py_str 1 (b :: rest) EmptyString) as [e|text]
    eqn:Hrender.
  - rewrite (render_breaches_exn _ _ _ _ Hrender). auto.
  - right. right. right. exists (String c k), text.
    split; [reflexivity|]. split; [reflexivity|].
    apply guarded_call_outcome.
Qed.

Lemma guarded_outcome_events (k text : string) (w : world)
      (run : Exc json * world) :
  guarded_outcome requests_post k text w run ->
  exists evs,
    snd run = w ++ Post (api_url k) (payload text) :: evs
    /\ posts evs = [] /\ sleeps evs = [] /\ notify_calls evs = [].
Proof.
  intros [response result content _ _ _ _ _|msg _|e _]; cbn [snd];
    eexists; (split; [reflexivity|]); repeat split.
Qed.

(** X14: a call that passes both guards with breaches that are all dicts
    sends exactly one request to the provider, whatever the provider
    does with it: to the URL carrying the credential, with a prompt that
    holds the blocks of the breaches numbered from 1 in input order,
    "N/A" standing for a missing key. *)
Theorem summarize_posts_once (k : string) (request : AISummaryRequest)
        (w : world) :
  k <> EmptyString ->
  breach_data request <> [] ->
  Forall is_dict (breach_data request) ->
  exists evs,
    snd (summarize_breach_with_ai py_str requests_post (Some k) request w)
    = w ++ Post (api_url k)
             (payload (breach_blocks py_str 1 (breach_data request)))
           :: evs
    /\ posts evs = [].
Proof.
  intros Hk Hdata Hd.
  pose proof (render_breaches_dicts _ Hd 1 EmptyString) as Hrender.
  cbn [append] in Hrender.
  rewrite (SummaryProofs.summarize_reaches_provider py_str requests_post k
             request _ Hk Hdata Hrender).
  destruct (guarded_outcome_events _ _ _ _
              (guarded_call_outcome k
                 (breach_blocks py_str 1 (breach_data request)) w))
    as [evs [Hevs [Hposts _]]].
  now exists evs.
Qed.

(** X15: a breach that is not a dict makes a call that passed both guards
    fail with [AttributeError] while the prompt is rendered, outside the
    [try]: the framework answers 500 and the provider is not contacted. *)
Theorem summarize_needs_dicts (k : string) (request : AISummaryRequest)
        (w : world) :
  k <> EmptyString ->
  Exists (fun breach => ~ is_dict breach) (breach_data request) ->
  summarize_breach_with_ai py_str requests_post (Some k) request w
  = (inl AttributeError, w)
  /\ http_status
       (fst (summarize_breach_with_ai py_str requests_post (Some k)
               request w)) = 500%Z.
Proof.
  intros Hk Hex. unfold summarize_breach_with_ai.
  destruct k as [|c k]; [contradiction|]. cbn [truthy negb].
  destruct (breach_data request) as [|b rest] eqn:Hdata; [inversion Hex|].
  cbn [truthy negb]. step.
  rewrite (render_breaches_non_dict _ Hex). split; reflexivity.
Qed.

(** X16: summarize-breach is answered with status 200, 400, 500 or 503
    and no other, whatever the credential, the request and the provider
    are. *)
Theorem summarize_status_codes (GOOGLE_API_KEY : option string)
        (request : AISummaryRequest) (w : world) :
  In (http_status
        (fst (summarize_breach_with_ai py_str requests_post GOOGLE_API_KEY
                request w)))
     [200%Z; 400%Z; 500%Z; 503%Z].
Proof.
  destruct (summarize_outcome GOOGLE_API_KEY request w)
    as [-> | [-> | [-> | [k [text [_ [_ Hout]]]]]]]; cbn; auto.
  destruct Hout; cbn; auto.
Qed.

(** X17: a summarize-breach call that returns has returned a one-key
    dict whose summary is what was extracted from the provider's answer
    and is truthy: an empty summary is never returned. *)
Theorem summarize_summary_is_truthy (GOOGLE_API_KEY : option string)
        (request : AISummaryRequest) (w : world) (body : json) :
  fst (summarize_breach_with_ai py_str requests_post GOOGLE_API_KEY
         request w) = inr body ->
  exists content,
    body = JObj [("summary", content)] /\ truthy content = true.
Proof.
  destruct (summarize_outcome GOOGLE_API_KEY request w)
    as [-> | [-> | [-> | [k [text [_ [_ Hout]]]]]]]; try discriminate.
  destruct Hout as [response result content _ _ _ _ Ht|msg _|e _];
    try discriminate.
  intros H. injection H as <-. now exists content.
Qed.

(** X18: a 503 from summarize-breach always comes from a
    [RequestException]: the prompt was rendered, and [post],
    [raise_for_status] or [json] raised one, whose text ends the
    message. *)
Theorem summarize_503_only_from_requests (GOOGLE_API_KEY : option string)
        (request : AISummaryRequest) (w : world) (d : string) :
  fst (summarize_breach_with_ai py_str requests_post GOOGLE_API_KEY
         request w) = inl (HTTPException 503 d) ->
  exists k text msg,
    GOOGLE_API_KEY = Some k
    /\ render_breaches py_str 1 (breach_data request) EmptyString = inr text
    /\ d = ("Error communicating with the AI service: " ++ msg)%string
    /\ (requests_post (api_url k) (payload text) = inl (RequestException msg)
        \/ exists response,
            requests_post (api_url k) (payload text) = inr response
            /\ (raise_for_status response = inl (RequestException msg)
                \/ (raise_for_status response = inr tt
                    /\ response_json response
                       = inl (RequestException msg)))).
Proof.
  destruct (summarize_outcome GOOGLE_API_KEY request w)
    as [-> | [-> | [-> | [k [text [Hk [Hr Hout]]]]]]]; try discriminate.
  destruct Hout as [response result content _ _ _ _ _|msg Hmsg|e _];
    try discriminate.
  intros H. injection H as <-. now exists k, text, msg.
Qed.

(** X19: when the provider's answer is JSON of another shape than the
    extraction expects (not a dict, an empty candidates list, a dict
    where a list is expected), the exception of the extraction is caught
    and the call fails with the catch-all 500 error. *)
Theorem summarize_malformed_answer (k : string) (request : AISummaryRequest)
        (text : string) (response : Response) (result : json) (e : exn)
        (w : world) :
  k <> EmptyString ->
  breach_data request <> [] ->
  render_breaches py_str 1 (breach_data request) EmptyString = inr text ->
  requests_post (api_url k) (payload text) = inr response ->
  raise_for_status response = inr tt ->
  response_json response = inr result ->
  extract_content result = inl e ->
  summarize_breach_with_ai py_str requests_post (Some k) request w
  = (inl (HTTPException 500
            "An internal error occurred while processing the AI summary."),
     w ++ [Post (api_url k) (payload text);
           PrintExc "An unexpected error occurred: " e]).
Proof.
  intros Hk Hdata Htext Hpost Hstatus Hjson Hcontent.
  rewrite (SummaryProofs.summarize_reaches_provider py_str requests_post k
             request text Hk Hdata Htext).
  unfold call_provider. step.
  rewrite Hpost, Hstatus, Hjson, Hcontent.
  destruct (extract_content_exn _ _ Hcontent) as [-> | [-> | [-> | ->]]];
    cbn [on_exception]; step; rewrite <- app_assoc; reflexivity.
Qed.

(** X20: whatever happens, a summarize-breach call sends at most one
    request to the provider (it never retries), takes no pause and sends
    no notification. *)
Theorem summarize_never_retries (GOOGLE_API_KEY : option string)
        (request : AISummaryRequest) (w : world) :
  exists evs,
    snd (summarize_breach_with_ai py_str requests_post GOOGLE_API_KEY
           request w) = w ++ evs
    /\ List.length (posts evs) <= 1
    /\ sleeps evs = [] /\ notify_calls evs = [].
Proof.
  destruct (summarize_outcome GOOGLE_API_KEY request w)
    as [-> | [-> | [-> | [k [text [_ [_ Hout]]]]]]];
    try (exists []; cbn; rewrite app_nil_r; repeat split; lia).
  destruct (guarded_outcome_events _ _ _ _ Hout)
    as [evs [-> [Hposts [Hsleeps Hcalls]]]].
  eexists. split; [reflexivity|]. cbn. rewrite Hposts. cbn.
  repeat split; [lia|assumption|assumption].
Qed.

End WithProvider.

Lemma summarize_posts_once_witness :
  exists evs,
    snd (summarize_breach_with_ai example_str provider_down (Some "k3y")
           {| breach_data := [example_record] |} [])
    = [] ++ Post (api_url "k3y")
              (payload (breach_blocks example_str 1 [example_record]))
            :: evs
    /\ posts evs = [].
Proof.
  apply (summarize_posts_once example_str provider_down "k3y"
           {| breach_data := [example_record] |} []).
  - discriminate.
  - discriminate.
  - constructor; [|constructor]. eexists. reflexivity.
Defined.

Lemma summarize_needs_dicts_witness :
  summarize_breach_with_ai example_str provider_down (Some "k3y")
    {| breach_data := [example_record; JStr "LeakCo"] |} []
  = (inl AttributeError, [])
  /\ http_status
       (fst (summarize_breach_with_ai example_str provider_down (Some "k3y")
               {| breach_data := [example_record; JStr "LeakCo"] |} []))
     = 500%Z.
Proof.
  apply (summarize_needs_dicts example_str provider_down "k3y"
           {| breach_data := [example_record; JStr "LeakCo"] |} []).
  - discriminate.
  - apply Exists_cons_tl. apply Exists_cons_hd. intros [kv H]. discriminate.
Defined.

Lemma summarize_summary_is_truthy_witness :
  exists content,
    JObj [("summary", JStr "Stay calm.")] = JObj [("summary", content)]
    /\ truthy content = true.
Proof.
  apply (summarize_summary_is_truthy example_str
           (provider_answers
              (JObj [("candidates",
                      JList [JObj [("content",
                                    JObj [("parts",
                                           JList [JObj [("text", JStr "Stay calm.")]])])]])]))
           (Some "k3y") {| breach_data := [example_record] |} []
           (JObj [("summary", JStr "Stay calm.")])).
  reflexivity.
Defined.

Lemma summarize_503_only_from_requests_witness :
  exists k text msg,
    Some "k3y" = Some k
    /\ render_breaches example_str 1 [example_record] EmptyString = inr text
    /\ "Error communicating with the AI service: 429 Client Error: Too Many Requests"
       = ("Error communicating with the AI service: " ++ msg)%string
    /\ (provider_rejects (api_url k) (payload text)
        = inl (RequestException msg)
        \/ exists response,
            provider_rejects (api_url k) (payload text) = inr response
            /\ (raise_for_status response = inl (RequestException msg)
                \/ (raise_for_status response = inr tt
                    /\ response_json response
                       = inl (RequestException msg)))).
Proof.
  apply (summarize_503_only_from_requests example_str provider_rejects
           (Some "k3y") {| breach_data := [example_record] |} []
           "Error communicating with the AI service: 429 Client Error: Too Many Requests").
  reflexivity.
Defined.

Lemma summarize_malformed_answer_witness :
  summarize_breach_with_ai example_str
    (provider_answers (JObj [("candidates", JList [])])) (Some "k3y")
    {| breach_data := [example_record] |} []
  = (inl (HTTPException 500
            "An internal error occurred while processing the AI summary."),
     [] ++ [Post (api_url "k3y") (payload example_text);
            PrintExc "An unexpected error occurred: " IndexError]).
Proof.
  apply (summarize_malformed_answer example_str
           (provider_answers (JObj [("candidates", JList [])])) "k3y"
           {| breach_data := [example_record] |} example_text
           {| raise_for_status := inr tt;
              response_json := inr (JObj [("candidates", JList [])]) |}
           (JObj [("candidates", JList [])]) IndexError []).
  - discriminate.
  - discriminate.
  - reflexivity.
  - reflexivity.
  - reflexivity.
  - reflexivity.
  - reflexivity.
Defined.

End SummaryExtras.
